(** * OpenERP StartScript

    A shallow embedding of [openerp.py], the start/stop script that drives
    [start-stop-daemon] for the OpenERP server and web server, together with
    the properties of its lifecycle operations.

    Layout:
    - [Py]        the Python primitives the script relies on (string
                  methods, [posixpath.join], ['%d'] formatting);
    - [Optparse]  the part of the standard [optparse] module that
                  [parser.parse_args] runs for the options the script declares;
    - [Openerp]   the script itself: [start], [stop], [exit], [main] and the
                  [sys.exit(main(sys.argv))] entry point, over an explicit
                  operating-system oracle and an event trace;
    - [Contract]  the tri-state reading of results used by the specification,
                  and the vocabulary of the statements;
    - [Scenario]  hosts for the examples;
    - [Behaviour] the vocabulary for whole invocations (events apart from
                  debug records, files opened, the ways [main] ends);
    - the lemmas on the primitives, the operations, [main] and the parser,
      then the theorems on the claims, and in [Examples] their use on
      the hosts of [Scenario];
    - further theorems on the script (failures to run a command, restart,
      status, what holds of every invocation, [--debug], help and option
      errors, directories), and in [Illustrations] their use. *)

From Stdlib Require Import String Ascii List ZArith Bool Lia DecimalString.
Import ListNotations.

Local Open Scope string_scope.

(* ================================================================== *)
(** ** Python primitives *)

Module Py.

(** The double-quote and the newline characters, as one-character strings. *)
Definition dq : string := String "034"%char EmptyString.
Definition nl : string := String "010"%char EmptyString.

(** ['%d' % n] *)
Definition fmt_d (n : Z) : string := NilZero.string_of_int (Z.to_int n).

(** [x in (a, b, ...)] for strings *)
Definition str_in (x : string) (t : list string) : bool :=
  existsb (String.eqb x) t.

(** [s.startswith(p)] *)
Definition startswith (s p : string) : bool := String.prefix p s.

(** [s.endswith(p)]: some tail of [s] is [p]. *)
Fixpoint endswith (s p : string) : bool :=
  (s =? p) ||
  match s with
  | EmptyString => false
  | String _ s' => endswith s' p
  end.

(** One round of the loop of [posixpath.join]. *)
Definition join_step (path b : string) : string :=
  if startswith b "/" then b
  else if (path =? "") || endswith path "/" then path ++ b
  else path ++ "/" ++ b.

(** [os.path.join(a, *p)] *)
Definition join (a : string) (p : list string) : string :=
  fold_left join_step p a.

(** [file.readline()] on the content of a freshly opened file: everything
    up to and including the first newline. *)
Fixpoint readline (content : string) : string :=
  match content with
  | EmptyString => EmptyString
  | String c rest =>
      if Ascii.eqb c "010" then String c EmptyString
      else String c (readline rest)
  end.

(** The characters [str.strip()] removes from a byte string: space, and
    tab .. carriage return (9 .. 13). *)
Definition isspace (c : ascii) : bool :=
  let n := nat_of_ascii c in
  ((n =? 32) || ((9 <=? n) && (n <=? 13)))%nat.

Fixpoint lstrip (s : string) : string :=
  match s with
  | EmptyString => EmptyString
  | String c s' => if isspace c then lstrip s' else s
  end.

Fixpoint rstrip (s : string) : string :=
  match s with
  | EmptyString => EmptyString
  | String c s' =>
      match rstrip s' with
      | EmptyString => if isspace c then EmptyString else String c EmptyString
      | t => String c t
      end
  end.

(** [s.strip()] *)
Definition strip (s : string) : string := rstrip (lstrip s).

(** ["=" in arg] together with [arg.split("=", 1)]: [None] when [arg] has
    no ["="], otherwise what stands before and after the first one. *)
Fixpoint split_eq (arg : string) : option (string * string) :=
  match arg with
  | EmptyString => None
  | String c rest =>
      if Ascii.eqb c "=" then Some (EmptyString, rest)
      else match split_eq rest with
           | Some (opt, next_arg) => Some (String c opt, next_arg)
           | None => None
           end
  end.

(** Whether a byte string holds a NUL byte; [os.stat] refuses such a
    path with a [TypeError]. *)
Fixpoint has_nul (s : string) : bool :=
  match s with
  | EmptyString => false
  | String c s' => Ascii.eqb c "000" || has_nul s'
  end.

End Py.

(* ================================================================== *)
(** ** The option parser

    [optparse.OptionParser.parse_args] for a parser whose options use the
    actions [store], [store_true] and [help] (the only ones the script
    declares; [-h/--help] is added by the parser itself).  The parser is
    generic in the type of the [Values] object and in its option tables. *)

Module Optparse.

(** What [Option.take_action] does with the value. *)
Inductive Action (Values : Type) : Type :=
| store (setattr : string -> Values -> Values)
| store_true (setattr : bool -> Values -> Values)
| help.
Arguments store {Values} setattr.
Arguments store_true {Values} setattr.
Arguments help {Values}.

(** [Option.takes_value()]: only [store] options carry a type. *)
Definition takes_value {Values} (option : Action Values) : bool :=
  match option with
  | store _ => true
  | _ => false
  end.

(** The messages [parser.error] is called with. *)
Inductive ParseError : Type :=
| BadOptionError (opt : string)            (* no such option *)
| AmbiguousOptionError (opt : string)      (* ambiguous option *)
| RequiresArgument (opt : string)          (* option requires 1 argument *)
| TakesNoValue (opt : string).             (* option does not take a value *)

(** The two ways parsing leaves the program: [print_help(); exit()] and
    [error(msg)], which prints the usage and exits with status 2. *)
Inductive ParserExit : Type :=
| PrintHelp
| Error (e : ParseError).

Definition exit_status (x : ParserExit) : Z :=
  match x with
  | PrintHelp => 0
  | Error _ => 2
  end.

(** One pass of the loop of [_process_args]: the remaining arguments and
    the values afterwards, or the way out. *)
Inductive Pass (Values : Type) : Type :=
| Next (rargs : list string) (values : Values)
| Leave (x : ParserExit).
Arguments Next {Values} rargs values.
Arguments Leave {Values} x.

(** Where [_process_args] ends. *)
Inductive Processed (Values : Type) : Type :=
| Done (largs rargs : list string) (values : Values)
| Exited (x : ParserExit).
Arguments Done {Values} largs rargs values.
Arguments Exited {Values} x.

Section Parser.
Context {Values : Type}.
(** [self._long_opt] and [self._short_opt], in insertion order. *)
Variable long_opt : list (string * Action Values).
Variable short_opt : list (string * Action Values).

(** [wordmap.get(s)] *)
Definition get (s : string) (wordmap : list (string * Action Values))
  : Datatypes.option (string * Action Values) :=
  find (fun kv => fst kv =? s) wordmap.

(** [_match_abbrev(s, wordmap)], returning the entry of the key it
    resolves to. *)
Definition _match_abbrev (s : string) (wordmap : list (string * Action Values))
  : ParseError + (string * Action Values) :=
  match get s wordmap with
  | Some entry => inr entry
  | None =>
      match filter (fun kv => Py.startswith (fst kv) s) wordmap with
      | [entry] => inr entry
      | [] => inl (BadOptionError s)
      | _ => inl (AmbiguousOptionError s)
      end
  end.

(** [option.process(opt, value, values, parser)] followed by the rest of
    the pass. *)
Definition process (option : Action Values) (value : Datatypes.option string)
           (rargs : list string) (values : Values) : Pass Values :=
  match option, value with
  | store setattr, Some v => Next rargs (setattr v values)
  | store _, None => Next rargs values
  | store_true setattr, _ => Next rargs (setattr true values)
  | help, _ => Leave PrintHelp
  end.

(** [_process_long_opt], with [arg = rargs.pop(0)] already taken. *)
Definition _process_long_opt (arg : string) (rargs : list string)
           (values : Values) : Pass Values :=
  let '(opt, rargs, had_explicit_value) :=
    match Py.split_eq arg with
    | Some (opt, next_arg) => (opt, next_arg :: rargs, true)
    | None => (arg, rargs, false)
    end in
  match _match_abbrev opt long_opt with
  | inl e => Leave (Error e)
  | inr (opt, option) =>
      if takes_value option then
        match rargs with
        | [] => Leave (Error (RequiresArgument opt))
        | value :: rargs => process option (Some value) rargs values
        end
      else if had_explicit_value then Leave (Error (TakesNoValue opt))
      else process option None rargs values
  end.

(** The [for ch in arg[1:]] loop of [_process_short_opts]. *)
Fixpoint short_opts_loop (chars : string) (rargs : list string)
         (values : Values) : Pass Values :=
  match chars with
  | EmptyString => Next rargs values
  | String ch chars =>
      let opt := "-" ++ String ch EmptyString in
      match get opt short_opt with
      | None => Leave (Error (BadOptionError opt))
      | Some (_, option) =>
          if takes_value option then
            let rargs := if chars =? "" then rargs else chars :: rargs in
            match rargs with
            | [] => Leave (Error (RequiresArgument opt))
            | value :: rargs => process option (Some value) rargs values
            end
          else
            match process option None rargs values with
            | Next rargs values => short_opts_loop chars rargs values
            | Leave x => Leave x
            end
      end
  end.

(** [_process_short_opts], with [arg = rargs.pop(0)] already taken. *)
Definition _process_short_opts (arg : string) (rargs : list string)
           (values : Values) : Pass Values :=
  short_opts_loop (substring 1 (String.length arg) arg) rargs values.

(** [_process_args]: the [while rargs] loop.  Every pass removes at
    least one argument, so [length rargs] passes are enough; see
    [_process_args_fuel]. *)
Fixpoint _process_args (fuel : nat) (largs rargs : list string)
         (values : Values) : Processed Values :=
  match fuel, rargs with
  | S fuel, arg :: rest =>
      if arg =? "--" then Done largs rest values
      else if substring 0 2 arg =? "--" then
        match _process_long_opt arg rest values with
        | Next rargs values => _process_args fuel largs rargs values
        | Leave x => Exited x
        end
      else if (substring 0 1 arg =? "-") && (1 <? String.length arg)%nat then
        match _process_short_opts arg rest values with
        | Next rargs values => _process_args fuel largs rargs values
        | Leave x => Exited x
        end
      else (* allow_interspersed_args *)
        _process_args fuel (largs ++ [arg])%list rest values
  | _, _ => Done largs rargs values
  end.

(** [parse_args(args)], from the default values. *)
Definition parse_args (args : list string) (defaults : Values)
  : ParserExit + (Values * list string) :=
  match _process_args (length args) [] args defaults with
  | Done largs rargs values => inr (values, (largs ++ rargs)%list)
  | Exited x => inl x
  end.

End Parser.

End Optparse.

(* ================================================================== *)
(** ** The script *)

Module Openerp.
Import Py Optparse.

(** *** The operating system, as the script sees it *)

(** What can go wrong on the line
    [subprocess.Popen(shlex.split(command), **POPEN_ARGS)]: [shlex.split]
    rejects the command line, or the program cannot be executed. *)
Inductive SpawnError : Type := ValueError | OSError.

(** [Popen] then [process.communicate()]: the return code of the
    command (negative when a signal killed it) with what it wrote on its
    output and error streams, both captured ([POPEN_ARGS]). *)
Inductive Completion : Type :=
| Completed (returncode : Z) (output error : string)
| Failed (e : SpawnError).

(** The host during one invocation.  The script asks each question once
    at most (two commands for [restart]), so the answers are functions of
    the question and, for commands, of how many were run before. *)
Record World : Type := {
  (** whether [os.stat(path)] succeeds, asked for the paths a POSIX
      system has (no NUL byte) *)
  stat : string -> bool;
  (** [os.getcwd()] *)
  getcwd : string;
  (** [open(filename)] and the read that follows: the content of the
      file, [None] when the file cannot be opened or read *)
  file_content : string -> option string;
  (** [communicate n command]: the outcome of [command] when it is run
      after [n] earlier commands *)
  communicate : nat -> string -> Completion
}.

(** [os.path.exists(path)] returns [True]: [os.stat] takes the path, which
    holds no NUL byte, and succeeds. *)
Definition path_exists (w : World) (path : string) : bool :=
  negb (has_nul path) && stat w path.

(** [logging] levels with their numeric values. *)
Inductive Level : Type := DEBUG | INFO | ERROR.

Definition levelno (l : Level) : Z :=
  match l with
  | DEBUG => 10
  | INFO => 20
  | ERROR => 40
  end.

(** What a run does to the outside, in order. *)
Inductive Event : Type :=
| Popen (command : string)                 (* a command line is run *)
| Open (filename : string)                 (* a file is opened for reading *)
| Log (level : Level) (message : string)   (* a record reaches the handler *)
| Usage (x : ParserExit).                  (* the parser prints help or an error *)

Inductive Exn : Type :=
| IndexError
| IOError (filename : string)
| TypeError
| SpawnFailure (e : SpawnError)
| SystemExit (code : option Z).

(** The root logger's level and the events so far. *)
Record State : Type := mkState {
  level : Level;
  trace : list Event
}.

Inductive Result (A : Type) : Type :=
| Val (a : A)
| Raise (e : Exn).
Arguments Val {A} a.
Arguments Raise {A} e.

(** Computations of the script: state passing with exceptions. *)
Definition M (A : Type) : Type := State -> Result A * State.

Definition ret {A} (a : A) : M A := fun s => (Val a, s).

Definition bind {A B} (m : M A) (k : A -> M B) : M B :=
  fun s =>
    match m s with
    | (Val a, s') => k a s'
    | (Raise e, s') => (Raise e, s')
    end.

Definition raise {A} (e : Exn) : M A := fun s => (Raise e, s).

Definition emit (ev : Event) : M unit :=
  fun s => (Val tt, mkState (level s) (trace s ++ [ev])%list).

Declare Scope py_scope.
Delimit Scope py_scope with py.
Notation "x <- c1 ;; c2" := (bind c1 (fun x => c2))
  (at level 61, c1 at next level, right associativity) : py_scope.
Notation "c1 ;; c2" := (bind c1 (fun _ => c2))
  (at level 61, right associativity) : py_scope.
Local Open Scope py_scope.

(** [logging.getLogger().setLevel(l)] *)
Definition setLevel (l : Level) : M unit :=
  fun s => (Val tt, mkState l (trace s)).

(** [logging.log(l, message)]: the record is handled when its level is
    not below the logger's. *)
Definition logging (l : Level) (message : string) : M unit :=
  fun s =>
    if (levelno (level s) <=? levelno l)%Z then emit (Log l message) s
    else (Val tt, s).

(** The command lines run so far. *)
Definition spawned (t : list Event) : list string :=
  flat_map (fun ev => match ev with Popen c => [c] | _ => [] end) t.

(** [argv[0]] *)
Definition argv_0 (argv : list string) : M string :=
  match argv with
  | a :: _ => ret a
  | [] => raise IndexError
  end.

(** Commands used to start/stop programs. *)
Definition START_COMMAND (script dir pidfile : string) : string :=
  "start-stop-daemon --start --quiet --startas " ++ script ++
  " --make-pidfile --background --chdir " ++ dir ++ " --pidfile " ++ pidfile.

Definition STOP_COMMAND (pidfile : string) : string :=
  "start-stop-daemon --stop --quiet --pidfile " ++ pidfile ++
  " -R TERM/15/KILL/5".

(** The [Values] object of the script's parser. *)
Record Values : Type := mkValues {
  server_dir : string;
  webserver_dir : string;
  user : string;
  debug : bool
}.

Definition set_server_dir (v : string) (o : Values) : Values :=
  mkValues v (webserver_dir o) (user o) (debug o).
Definition set_webserver_dir (v : string) (o : Values) : Values :=
  mkValues (server_dir o) v (user o) (debug o).
Definition set_user (v : string) (o : Values) : Values :=
  mkValues (server_dir o) (webserver_dir o) v (debug o).
Definition set_debug (v : bool) (o : Values) : Values :=
  mkValues (server_dir o) (webserver_dir o) (user o) v.

(** The parser [main] builds: [--help] comes from [OptionParser] itself,
    the four others from [add_option]. *)
Definition long_opt : list (string * Action Values) :=
  [ ("--help", help);
    ("--server-dir", store set_server_dir);
    ("--webserver-dir", store set_webserver_dir);
    ("--user", store set_user);
    ("--debug", store_true set_debug) ].

Definition short_opt : list (string * Action Values) :=
  [ ("-h", help) ].

(** The defaults given to [add_option]; an unset [debug] is [None],
    which [if options.debug] reads as false. *)
Definition defaults : Values := mkValues "server" "web" "openerp" false.

(** [parser.parse_args(args)], as a function, and with what the parser
    prints and its [sys.exit] when it does not return. *)
Definition parser (args : list string) : ParserExit + (Values * list string) :=
  parse_args long_opt short_opt args defaults.

Definition parser_parse_args (args : list string) : M (Values * list string) :=
  match parser args with
  | inr parsed => ret parsed
  | inl x => emit (Usage x) ;; raise (SystemExit (Some (exit_status x)))
  end.

Section Script.
Variable w : World.

(** [os.path.exists(path)]: [genericpath.exists] answers [False] when
    [os.stat] fails with [os.error], and lets through the [TypeError]
    [os.stat] raises on a path with a NUL byte. *)
Definition os_path_exists (path : string) : M bool :=
  if has_nul path then raise TypeError
  else ret (stat w path).

(** [process = subprocess.Popen(shlex.split(command), **POPEN_ARGS)]
    and [output, error = process.communicate()] *)
Definition popen_communicate (command : string) : M (Z * string * string) :=
  fun s =>
    let n := length (spawned (trace s)) in
    match emit (Popen command) s with
    | (_, s') =>
        match communicate w n command with
        | Completed returncode output error =>
            (Val (returncode, output, error), s')
        | Failed e => (Raise (SpawnFailure e), s')
        end
    end.

(** [open(filename)] and the read of its content.  The only file opened
    is the PID file, after the program file was found: its name then
    holds no NUL byte ([pidfile_nul_free]). *)
Definition open (filename : string) : M string :=
  emit (Open filename) ;;
  match file_content w filename with
  | Some content => ret content
  | None => raise (IOError filename)
  end.

(** Print the message and returns the code. *)
Definition exit (code : Z) (message : string) : M Z :=
  logging ERROR message ;;
  ret code.

(** Starts the program with [start-stop-daemon].  The streams are byte
    strings, which [str] leaves as they are. *)
Definition start (directory program pidfile : string) : M Z :=
  let command := START_COMMAND program directory pidfile in
  p <- popen_communicate command ;;
  let '(returncode, output, error) := p in
  logging DEBUG ("Running " ++ dq ++ command ++ dq ++ ", returncode="
                   ++ fmt_d returncode ++ ".") ;;
  if (returncode =? 1)%Z then
    let message := "The process is already running !" in
    exit returncode message
  else if (1 <? returncode)%Z then
    let message := "An error occured, here is the output :" ++ nl ++ " "
                     ++ output ++ error in
    exit returncode message
  else
    ret 0%Z.

(** Stops the program with [start-stop-daemon] (its docstring in the
    source repeats the one of [start]). *)
Definition stop (pidfile : string) : M Z :=
  let command := STOP_COMMAND pidfile in
  p <- popen_communicate command ;;
  let '(returncode, output, error) := p in
  logging DEBUG ("Running " ++ dq ++ command ++ dq ++ ", returncode="
                   ++ fmt_d returncode ++ ".") ;;
  if (returncode =? 1)%Z then
    let message := "The process is not running !" in
    exit returncode message
  else if (1 <? returncode)%Z then
    let message := "An error occured, here is the output : " ++ nl ++ " "
                     ++ output ++ error in
    exit returncode message
  else
    ret 0%Z.

(** [return f(...)] of an integer from [main], whose result may also be
    [None]. *)
Definition returning (m : M Z) : M (option Z) :=
  code <- m ;; ret (Some code).

(** [len(args) < 2 or args[0] not in (...) or args[1] not in (...)] *)
Definition bad_arguments (args : list string) : bool :=
  (length args <? 2)%nat
  || negb (str_in (nth 0 args "") ["start"; "stop"; "restart"; "status"])
  || negb (str_in (nth 1 args "") ["server"; "webserver"]).

(** Main function called when executing the script. *)
Definition main (argv : list string) : M (option Z) :=
  argv0 <- argv_0 argv ;;
  parsed <- parser_parse_args (skipn 1 argv) ;;
  let '(options, args) := parsed in
  (if debug options then setLevel DEBUG else ret tt) ;;
  if bad_arguments args then
    returning (exit 1 ("ERROR: Use " ++ dq ++ argv0 ++ " --help" ++ dq
                         ++ " to get more informations."))
  else
  let command := nth 0 args "" in
  let target := nth 1 args "" in
  match
    (if target =? "server" then
       Some (join (server_dir options) ["bin"; "openerp-server.py"],
             join (server_dir options) ["bin"; "server.pid"])
     else if target =? "webserver" then
       Some (join (webserver_dir options) ["openerp-web.py"],
             join (webserver_dir options) ["webserver.pid"])
     else None)
  with
  | None => returning (exit 1 ("Invalid target: " ++ target))
  | Some (program, pidfile) =>
      present <- os_path_exists program ;;
      if negb present then
        returning (exit 1 ("The '" ++ target ++ "' program file doesn't exist: "
                             ++ program ++ "."))
      else if command =? "start" then
        code <- start (getcwd w) program pidfile ;;
        (if (code =? 0)%Z then
           logging INFO ("The target " ++ dq ++ target ++ dq
                           ++ " has been started correctly.")
         else ret tt) ;;
        ret (Some code)
      else if command =? "stop" then
        code <- stop pidfile ;;
        (if (code =? 0)%Z then
           logging INFO ("The target " ++ dq ++ target ++ dq
                           ++ " has been stopped correctly.")
         else ret tt) ;;
        ret (Some code)
      else if command =? "restart" then
        code_stop <- stop pidfile ;;
        code_start <- start (getcwd w) program pidfile ;;
        if negb (code_stop =? 0)%Z || negb (code_start =? 0)%Z then
          returning (exit 1 ("Error while restarting the target " ++ dq
                               ++ target ++ dq ++ "."))
        else ret (Some 0%Z)
      else if command =? "status" then
        content <- open pidfile ;;
        let pid := strip (readline content) in
        alive <- os_path_exists (join "/proc" [pid]) ;;
        (if alive then
           logging INFO ("The target " ++ dq ++ target ++ dq ++ " is running.")
         else
           logging INFO ("The target " ++ dq ++ target ++ dq ++ " is stopped.")) ;;
        ret (Some 0%Z)
      else ret None
  end.

(** [sys.exit(main(sys.argv))] *)
Definition script (argv : list string) : M unit :=
  code <- main argv ;;
  raise (SystemExit code).

(** [logging.basicConfig(stream=sys.stdout, level=logging.INFO, ...)] *)
Definition initial : State := mkState INFO [].

(** The exit status of the interpreter: the code of [SystemExit]
    ([None] counting as 0), and 1 after any other uncaught exception.
    The codes the script exits with are 0, 1, 2 and return codes of
    commands, all below 256: the status is the code itself. *)
Definition status_of {A} (r : Result A) : Z :=
  match r with
  | Raise (SystemExit (Some code)) => code
  | Raise (SystemExit None) => 0
  | Raise _ => 1
  | Val _ => 0
  end.

(** One invocation of the script: its exit status and its events. *)
Definition run (argv : list string) : Z * list Event :=
  let '(r, s) := script argv initial in (status_of r, trace s).

End Script.

End Openerp.

(* ================================================================== *)
(** ** The specification's reading of results *)

Module Contract.
Import Py Optparse Openerp.

(** The tri-state Operation Outcome of the specification. *)
Inductive Outcome : Type :=
| Success
| AlreadyInDesiredState (message : string)
| Failure (code : Z) (message : string).

(** What the caller of an operation gets for an outcome: the code it
    returns, and the messages logged as errors. *)
Definition code_of (o : Outcome) : Z :=
  match o with
  | Success => 0
  | AlreadyInDesiredState _ => 1
  | Failure code _ => code
  end.

Definition errors_of (o : Outcome) : list string :=
  match o with
  | Success => []
  | AlreadyInDesiredState message => [message]
  | Failure _ message => [message]
  end.

(** The specification's words for [start] and [stop]: [Success] on exit
    code 0, [AlreadyInDesiredState] on exit code 1, [Failure] on any other
    code, with the combined output and error streams in the message. *)
Definition interpret (already : string) (failure : string -> string)
           (r : Z) (output error : string) : Outcome :=
  if (r =? 0)%Z then Success
  else if (r =? 1)%Z then AlreadyInDesiredState already
  else Failure r (failure (output ++ error)).

(** The tests [start] and [stop] make on [process.returncode]: equal to 1,
    greater than 1, anything else. *)
Definition read_returncode (already : string) (failure : string -> string)
           (r : Z) (output error : string) : Outcome :=
  if (r =? 1)%Z then AlreadyInDesiredState already
  else if (1 <? r)%Z then Failure r (failure (output ++ error))
  else Success.

(** The messages of the two operations. *)
Definition start_already : string := "The process is already running !".
Definition start_failure (captured : string) : string :=
  "An error occured, here is the output :" ++ nl ++ " " ++ captured.

Definition stop_already : string := "The process is not running !".
Definition stop_failure (captured : string) : string :=
  "An error occured, here is the output : " ++ nl ++ " " ++ captured.

Definition level_eqb (a b : Level) : bool :=
  match a, b with
  | DEBUG, DEBUG | INFO, INFO | ERROR, ERROR => true
  | _, _ => false
  end.

(** The messages of the records of level [l] in a trace. *)
Definition records (l : Level) (t : list Event) : list string :=
  flat_map (fun ev => match ev with
                      | Log l' message => if level_eqb l l' then [message] else []
                      | _ => []
                      end) t.

(** What a run of an operation leaves behind, seen through the level of
    the logger, the commands run and the records of level [ERROR] and
    [INFO]. *)
Definition operation_effect (s s' : State) (command : string) (o : Outcome) : Prop :=
  level s' = level s /\
  spawned (trace s') = (spawned (trace s) ++ [command])%list /\
  records ERROR (trace s') = (records ERROR (trace s) ++ errors_of o)%list /\
  records INFO (trace s') = records INFO (trace s).

(** The two fixed roles, with the paths [main] computes for them. *)
Definition roles : list string := ["server"; "webserver"].

Definition program_of (options : Values) (target : string) : string :=
  if target =? "server"
  then join (server_dir options) ["bin"; "openerp-server.py"]
  else join (webserver_dir options) ["openerp-web.py"].

Definition pidfile_of (options : Values) (target : string) : string :=
  if target =? "server"
  then join (server_dir options) ["bin"; "server.pid"]
  else join (webserver_dir options) ["webserver.pid"].

(** The state [main] is in once the options are parsed. *)
Definition parsed_state (options : Values) : State :=
  mkState (if debug options then DEBUG else INFO) [].

(** Options that differ at most in [user]. *)
Definition same_but_user (o1 o2 : Values) : Prop :=
  server_dir o1 = server_dir o2 /\
  webserver_dir o1 = webserver_dir o2 /\
  debug o1 = debug o2.

(** Two results of the parser that differ at most in [user]. *)
Definition same_parse (p1 p2 : ParserExit + (Values * list string)) : Prop :=
  match p1, p2 with
  | inl x1, inl x2 => x1 = x2
  | inr (o1, args1), inr (o2, args2) => same_but_user o1 o2 /\ args1 = args2
  | _, _ => False
  end.

Definition same_processed (p1 p2 : Processed Values) : Prop :=
  match p1, p2 with
  | Exited x1, Exited x2 => x1 = x2
  | Done largs1 rargs1 o1, Done largs2 rargs2 o2 =>
      largs1 = largs2 /\ rargs1 = rargs2 /\ same_but_user o1 o2
  | _, _ => False
  end.

(** Two passes of the parser that either leave the same way or go on
    with [rest1] and [rest2] and values that differ at most in [user]. *)
Definition same_pass (rest1 rest2 : list string) (p1 p2 : Pass Values) : Prop :=
  match p1, p2 with
  | Leave x1, Leave x2 => x1 = x2
  | Next rargs1 o1, Next rargs2 o2 =>
      rargs1 = rest1 /\ rargs2 = rest2 /\ same_but_user o1 o2
  | _, _ => False
  end.

(** The spellings of the [--user] option the parser accepts: the name
    and its unambiguous abbreviations. *)
Definition user_names : list string := ["--u"; "--us"; "--use"; "--user"].

(** [arg], read where the parser expects an option, is a long option
    that takes the argument after it as its value. *)
Definition awaits_value (arg : string) : bool :=
  (substring 0 2 arg =? "--") &&
  match split_eq arg with
  | Some _ => false
  | None =>
      match _match_abbrev arg long_opt with
      | inr (_, option) => takes_value option
      | inl _ => false
      end
  end.

(** Two argument lists that are the same except for the value given to
    one [--user] option: the option is given as two arguments
    ([--user VALUE]) or as one ([--user=VALUE]), and stands where the
    parser reads options, that is after arguments that are each read on
    their own ([uv_skip]) or together with their value
    ([uv_skip_valued]), and not behind the [--] that ends the options. *)
Inductive user_variant : list string -> list string -> Prop :=
| uv_separate opt u1 u2 post :
    In opt user_names ->
    user_variant (opt :: u1 :: post) (opt :: u2 :: post)
| uv_attached opt u1 u2 post :
    In opt user_names ->
    user_variant ((opt ++ "=" ++ u1) :: post) ((opt ++ "=" ++ u2) :: post)
| uv_skip arg r1 r2 :
    arg <> "--" ->
    awaits_value arg = false ->
    user_variant r1 r2 ->
    user_variant (arg :: r1) (arg :: r2)
| uv_skip_valued arg value r1 r2 :
    awaits_value arg = true ->
    user_variant r1 r2 ->
    user_variant (arg :: value :: r1) (arg :: value :: r2).

(** The two operations behind the commands [start] and [stop], with the
    command line each runs and the message [main] logs when it returns 0. *)
Definition operation (w : World) (options : Values) (command target : string)
  : M Z :=
  if command =? "start"
  then start w (getcwd w) (program_of options target) (pidfile_of options target)
  else stop w (pidfile_of options target).

Definition operation_command (w : World) (options : Values)
           (command target : string) : string :=
  if command =? "start"
  then START_COMMAND (program_of options target) (getcwd w)
                     (pidfile_of options target)
  else STOP_COMMAND (pidfile_of options target).

Definition success_message (command target : string) : string :=
  "The target " ++ dq ++ target ++ dq ++ " has been "
    ++ (if command =? "start" then "started" else "stopped") ++ " correctly.".

(** The messages of [status]. *)
Definition running_message (target : string) : string :=
  "The target " ++ dq ++ target ++ dq ++ " is running.".
Definition stopped_message (target : string) : string :=
  "The target " ++ dq ++ target ++ dq ++ " is stopped.".

(** [line] is the first line of [content]: it holds no newline, and
    [content] is [line] alone, or [line], a newline and the rest. *)
Fixpoint no_newline (s : string) : bool :=
  match s with
  | EmptyString => true
  | String c s' => negb (Ascii.eqb c "010") && no_newline s'
  end.

Inductive first_line (line : string) : string -> Prop :=
| first_line_only :
    no_newline line = true -> first_line line line
| first_line_more rest :
    no_newline line = true -> first_line line (line ++ nl ++ rest).

End Contract.

(* ================================================================== *)
(** ** Hosts on which the script is run in the examples *)

Module Scenario.
Import Py Openerp.

(** A host given by the paths that exist, the files that can be read
    with their content, and the outcomes of the commands run, in order. *)
Definition host (present : list string) (files : list (string * string))
           (outcomes : list Completion) : World :=
  {| stat := fun path => str_in path present;
     getcwd := "/srv/openerp";
     file_content :=
       fun filename =>
         option_map snd (find (fun kv => fst kv =? filename) files);
     communicate := fun n _ => nth n outcomes (Failed OSError) |}.

(** The two programs, as found from the default directories. *)
Definition installed : list string :=
  ["server/bin/openerp-server.py"; "web/openerp-web.py"].

Definition argv0 : string := "openerp.py".

(** The server is down: stopping it is a no-op, starting it works. *)
Definition down_host : World :=
  host installed [] [Completed 1 "" ""; Completed 0 "" ""].

(** The server is up, then down. *)
Definition up_host : World := host installed [] [Completed 0 "" ""].
Definition stopped_host : World := host installed [] [Completed 1 "" ""].

(** [start-stop-daemon] fails with status 2. *)
Definition failing_host : World :=
  host installed [] [Completed 2 "" "start-stop-daemon: bad usage"].

(** [start-stop-daemon] is killed by SIGTERM. *)
Definition killed_host : World :=
  host installed [] [Completed (-15) "" "Terminated"].

(** Nothing is installed. *)
Definition bare_host : World := host [] [] [].

(** The PID file names process 4242, which is alive. *)
Definition alive_host : World :=
  host (installed ++ ["/proc/4242"])%list
       [("server/bin/server.pid", "4242" ++ nl)] [].

(** The PID file holds an absolute path instead of a process id. *)
Definition odd_host : World :=
  host (installed ++ ["/tmp"])%list
       [("server/bin/server.pid", "/tmp" ++ nl)] [].

End Scenario.

(* ================================================================== *)
(** ** Vocabulary for the behaviour of whole invocations *)

Module Behaviour.
Import Py Optparse Openerp Contract Scenario.

(** The records of level [DEBUG], and the events that are not such
    records. *)
Definition is_debug (ev : Event) : bool :=
  match ev with
  | Log DEBUG _ => true
  | _ => false
  end.

Definition visible (t : list Event) : list Event :=
  filter (fun ev => negb (is_debug ev)) t.

(** The files opened in a trace. *)
Definition opened (t : list Event) : list string :=
  flat_map (fun ev => match ev with Open f => [f] | _ => [] end) t.

(** The message [main] logs when [restart] fails. *)
Definition restart_message (target : string) : string :=
  "Error while restarting the target " ++ dq ++ target ++ dq ++ ".".

(** The directory option [main] reads for a role. *)
Definition relevant_dir (options : Values) (target : string) : string :=
  if target =? "server" then server_dir options else webserver_dir options.


(** What [main w argv] can end in, from [initial]. *)
Definition ending (w : World) (argv : list string)
           (res : Result (option Z)) (s : State) : Prop :=
  match res with
  | Val (Some code) =>
      (code = 0%Z <-> records ERROR (trace s) = []) /\
      (code = 0%Z \/ code = 1%Z \/
       ((1 < code)%Z /\
        exists n command output error,
          nth_error (spawned (trace s)) n = Some command /\
          communicate w n command = Completed code output error)) /\
      (length (spawned (trace s)) <= 2)%nat /\
      (length (opened (trace s)) <= 1)%nat /\
      (spawned (trace s) = [] \/ opened (trace s) = []) /\
      (forall target, ~ In ("Invalid target: " ++ target)
                           (records ERROR (trace s)))
  | Val None => False
  | Raise (SystemExit (Some code)) =>
      exists x, parser (skipn 1 argv) = inl x /\ code = exit_status x /\
                trace s = [Usage x]
  | Raise (SystemExit None) => False
  | Raise IndexError => argv = [] /\ trace s = []
  | Raise (IOError filename) =>
      file_content w filename = None /\ trace s = [Open filename]
  | Raise TypeError =>
      spawned (trace s) = [] /\ records ERROR (trace s) = [] /\
      (length (opened (trace s)) <= 1)%nat
  | Raise (SpawnFailure e) =>
      (exists n command, communicate w n command = Failed e) /\
      opened (trace s) = [] /\
      (length (spawned (trace s)) <= 2)%nat /\
      (forall target, ~ In ("Invalid target: " ++ target)
                           (records ERROR (trace s)))
  end.

(** The states of two runs that show the same events apart from debug
    records, the logger being at [DEBUG] or [INFO] in both. *)
Definition alike (s1 s2 : State) : Prop :=
  visible (trace s1) = visible (trace s2) /\
  level s1 <> ERROR /\ level s2 <> ERROR.

(** Two computations that, from states alike, give the same result and
    states alike. *)
Definition simulates {A} (m1 m2 : M A) : Prop :=
  forall s1 s2,
    alike s1 s2 ->
    fst (m1 s1) = fst (m2 s2) /\ alike (snd (m1 s1)) (snd (m2 s2)).

(** A state of a run without [--debug]: the logger is at [INFO] and no
    debug record was handled. *)
Definition quiet (s : State) : Prop :=
  level s = INFO /\ visible (trace s) = trace s.

Definition keeps_quiet {A} (m : M A) : Prop :=
  forall s, quiet s -> quiet (snd (m s)).

(** A line of white space only. *)
Fixpoint blank (line : string) : bool :=
  match line with
  | EmptyString => true
  | String c line' => isspace c && blank line'
  end.

(** The NUL byte, as a one-character string. *)
Definition nul : string := String "000"%char EmptyString.

(** The PID file was filled with NUL bytes after the process id (a write
    cut short): its first line holds a NUL byte. *)
Definition zeroed_host : World :=
  host (installed ++ ["/proc/4242"])%list
       [("server/bin/server.pid", "4242" ++ nul ++ nul ++ nl)] [].

(** [start-stop-daemon] is not installed: no command can be run. *)
Definition no_daemon_host : World := host installed [] [].

(** The PID file is there, with a blank first line. *)
Definition blank_host : World :=
  host (installed ++ ["/proc/"])%list
       [("server/bin/server.pid", "  " ++ nl ++ "4242" ++ nl)] [].

(** The server is up and cannot be stopped: [start-stop-daemon] fails with
    status 2, then reports that the process is already running. *)
Definition stuck_host : World :=
  host installed []
       [Completed 2 "" "start-stop-daemon: cannot stop";
        Completed 1 "" ""].

End Behaviour.

Import Py Optparse Openerp Contract.
Local Open Scope py_scope.

(* ================================================================== *)
(** ** Proof steps used throughout *)

(* run [main] up to the result [Hp] of the parser *)
Ltac enter_main Hp :=
  unfold main, bind, argv_0, parser_parse_args, ret;
  match goal with
  | |- context [skipn 1 (?a :: ?r)] => change (skipn 1 (a :: r)) with r
  end;
  rewrite Hp; cbv beta iota.

(* decide the comparisons of two string literals, in the goal and the
   hypotheses *)
Ltac eval_eqb :=
  repeat match goal with
         | |- context [String.eqb ?a ?b] =>
             let v := eval vm_compute in (String.eqb a b) in
             match v with
             | true => change (String.eqb a b) with true
             | false => change (String.eqb a b) with false
             end
         | H : context [String.eqb ?a ?b] |- _ =>
             let v := eval vm_compute in (String.eqb a b) in
             match v with
             | true => change (String.eqb a b) with true in H
             | false => change (String.eqb a b) with false in H
             end
         end.

(* the two cases of [In target roles] *)
Ltac pick_role Ht :=
  unfold roles in Ht; simpl in Ht; destruct Ht as [<-|[<-|[]]].

(* ================================================================== *)
(** ** Traces of the logging and process primitives *)

Section Primitives.
Variable w : World.

Lemma records_app l t1 t2 :
  records l (t1 ++ t2) = (records l t1 ++ records l t2)%list.
Proof. unfold records. apply flat_map_app. Qed.

Lemma spawned_app t1 t2 :
  spawned (t1 ++ t2) = (spawned t1 ++ spawned t2)%list.
Proof. unfold spawned. apply flat_map_app. Qed.

(** An error record is handled at every level of the logger. *)
Lemma exit_run code message s :
  exit code message s =
    (Val code, mkState (level s) (trace s ++ [Log ERROR message])).
Proof.
  unfold exit, bind, logging, emit, ret.
  destruct s as [[] t]; reflexivity.
Qed.

(** A debug record changes neither the level, nor the commands, nor the
    records of the other levels. *)
Lemma logging_debug_run message s :
  exists s', logging DEBUG message s = (Val tt, s') /\
             level s' = level s /\
             spawned (trace s') = spawned (trace s) /\
             records ERROR (trace s') = records ERROR (trace s) /\
             records INFO (trace s') = records INFO (trace s).
Proof.
  unfold logging, emit.
  destruct (levelno (level s) <=? levelno DEBUG)%Z.
  - eexists; split; [reflexivity|]. simpl.
    rewrite spawned_app, !records_app. simpl. rewrite !app_nil_r. auto.
  - exists s. auto.
Qed.

(** [os.path.exists] answering [True] took a path without NUL byte. *)
Lemma path_exists_nul_free path :
  path_exists w path = true -> has_nul path = false.
Proof.
  unfold path_exists. intros H. apply andb_prop in H. destruct H as [H _].
  now apply negb_true_iff in H.
Qed.

Lemma stat_path_exists path :
  has_nul path = false -> stat w path = path_exists w path.
Proof. intros H. unfold path_exists. rewrite H. reflexivity. Qed.

Lemma os_path_exists_run path s :
  has_nul path = false ->
  os_path_exists w path s = (Val (path_exists w path), s).
Proof. intros H. unfold os_path_exists, path_exists. rewrite H. reflexivity. Qed.

Lemma os_path_exists_raises path s :
  has_nul path = true ->
  os_path_exists w path s = (Raise TypeError, s).
Proof. intros H. unfold os_path_exists. rewrite H. reflexivity. Qed.

Lemma popen_communicate_run command s r output error :
  communicate w (length (spawned (trace s))) command = Completed r output error ->
  popen_communicate w command s =
    (Val (r, output, error), mkState (level s) (trace s ++ [Popen command])).
Proof. intros H. unfold popen_communicate, emit. rewrite H. reflexivity. Qed.

End Primitives.

(* ================================================================== *)
(** ** The two operations, for every return code *)

Section Operations.
Variable w : World.

Lemma after_popen_effect s1 s command o message :
  level s1 = level s ->
  spawned (trace s1) = (spawned (trace s) ++ [command])%list ->
  records ERROR (trace s1) = records ERROR (trace s) ->
  records INFO (trace s1) = records INFO (trace s) ->
  errors_of o = [message] ->
  operation_effect s (mkState (level s1) (trace s1 ++ [Log ERROR message]))
                   command o.
Proof.
  intros Hl Hs He Hi Ho. unfold operation_effect. simpl.
  rewrite spawned_app, !records_app, Hs, He, Hi, Ho. simpl.
  rewrite !app_nil_r. auto.
Qed.

Lemma start_run directory program pidfile s r output error :
  communicate w (length (spawned (trace s)))
              (START_COMMAND program directory pidfile)
    = Completed r output error ->
  exists s',
    start w directory program pidfile s
      = (Val (code_of (read_returncode start_already start_failure r output error)), s')
    /\ operation_effect s s' (START_COMMAND program directory pidfile)
                        (read_returncode start_already start_failure r output error).
Proof.
  intros H. unfold start, bind.
  rewrite (popen_communicate_run w _ s r output error H).
  match goal with
  | |- context [logging DEBUG ?m ?st] =>
      destruct (logging_debug_run m st) as (s1 & E & Hl & Hs & He & Hi)
  end.
  rewrite E. simpl in Hl, Hs, He, Hi.
  rewrite spawned_app in Hs. rewrite records_app in He, Hi.
  simpl in Hs, He, Hi. rewrite app_nil_r in He, Hi.
  unfold read_returncode.
  destruct (r =? 1)%Z eqn:E1.
  - apply Z.eqb_eq in E1. subst r. rewrite exit_run.
    eexists; split; [reflexivity|].
    now apply after_popen_effect.
  - destruct (1 <? r)%Z eqn:E2.
    + rewrite exit_run. eexists; split; [reflexivity|].
      now apply after_popen_effect.
    + exists s1. split; [reflexivity|].
      unfold operation_effect. simpl. rewrite app_nil_r. auto.
Qed.

Lemma stop_run pidfile s r output error :
  communicate w (length (spawned (trace s))) (STOP_COMMAND pidfile)
    = Completed r output error ->
  exists s',
    stop w pidfile s
      = (Val (code_of (read_returncode stop_already stop_failure r output error)), s')
    /\ operation_effect s s' (STOP_COMMAND pidfile)
                        (read_returncode stop_already stop_failure r output error).
Proof.
  intros H. unfold stop, bind.
  rewrite (popen_communicate_run w _ s r output error H).
  match goal with
  | |- context [logging DEBUG ?m ?st] =>
      destruct (logging_debug_run m st) as (s1 & E & Hl & Hs & He & Hi)
  end.
  rewrite E. simpl in Hl, Hs, He, Hi.
  rewrite spawned_app in Hs. rewrite records_app in He, Hi.
  simpl in Hs, He, Hi. rewrite app_nil_r in He, Hi.
  unfold read_returncode.
  destruct (r =? 1)%Z eqn:E1.
  - apply Z.eqb_eq in E1. subst r. rewrite exit_run.
    eexists; split; [reflexivity|].
    now apply after_popen_effect.
  - destruct (1 <? r)%Z eqn:E2.
    + rewrite exit_run. eexists; split; [reflexivity|].
      now apply after_popen_effect.
    + exists s1. split; [reflexivity|].
      unfold operation_effect. simpl. rewrite app_nil_r. auto.
Qed.

(** On the codes the external mechanism documents (none negative), the
    tests of the code and the words of the specification agree. *)
Lemma read_returncode_interpret already failure r output error :
  (0 <= r)%Z ->
  read_returncode already failure r output error
    = interpret already failure r output error.
Proof.
  intros Hr. unfold read_returncode, interpret.
  destruct (r =? 0)%Z eqn:E0, (r =? 1)%Z eqn:E1, (1 <? r)%Z eqn:E2;
    try reflexivity;
    rewrite ?Z.eqb_eq, ?Z.eqb_neq, ?Z.ltb_lt, ?Z.ltb_ge in *; lia.
Qed.

Lemma read_returncode_negative already failure r output error :
  (r < 0)%Z ->
  read_returncode already failure r output error = Success.
Proof.
  intros Hr. unfold read_returncode.
  destruct (r =? 1)%Z eqn:E1, (1 <? r)%Z eqn:E2;
    try reflexivity;
    rewrite ?Z.eqb_eq, ?Z.ltb_lt in *; lia.
Qed.

End Operations.

(* ================================================================== *)
(** ** [main], from the parsed command line to the operation *)

Section Dispatch.
Variable w : World.

(** Arguments that pass the check of [main] name a command and a role. *)
Lemma bad_arguments_false args :
  bad_arguments args = false ->
  exists command target rest,
    args = command :: target :: rest /\
    In command ["start"; "stop"; "restart"; "status"] /\
    In target roles.
Proof.
  unfold bad_arguments. intros H.
  apply orb_false_elim in H. destruct H as [H Ht].
  apply orb_false_elim in H. destruct H as [Hl Hc].
  destruct args as [|command [|target rest]]; try discriminate.
  exists command, target, rest. split; [reflexivity|].
  apply negb_false_iff in Hc, Ht. unfold str_in in *.
  apply existsb_exists in Hc, Ht.
  destruct Hc as [c [Hin Hc]]. destruct Ht as [t [Hint Ht]].
  apply String.eqb_eq in Hc, Ht. simpl nth in *. subst. auto.
Qed.

Lemma main_bad_arguments argv0 rest options args :
  parser rest = inr (options, args) ->
  bad_arguments args = true ->
  main w (argv0 :: rest) initial =
    returning (exit 1 ("ERROR: Use " ++ dq ++ argv0 ++ " --help" ++ dq
                         ++ " to get more informations."))
              (parsed_state options).
Proof.
  intros Hp Hb. enter_main Hp. rewrite Hb.
  unfold parsed_state. destruct (debug options); reflexivity.
Qed.

Lemma main_missing_program argv0 rest options command target r :
  parser rest = inr (options, command :: target :: r) ->
  bad_arguments (command :: target :: r) = false ->
  has_nul (program_of options target) = false ->
  path_exists w (program_of options target) = false ->
  main w (argv0 :: rest) initial =
    returning (exit 1 ("The '" ++ target ++ "' program file doesn't exist: "
                         ++ program_of options target ++ "."))
              (parsed_state options).
Proof.
  intros Hp Hb Hn He. enter_main Hp. rewrite Hb.
  destruct (bad_arguments_false _ Hb) as (c & t & r' & E & _ & Ht).
  injection E as <- <- <-. unfold parsed_state, ret.
  pick_role Ht; unfold program_of in *; cbn [nth]; eval_eqb;
    destruct (debug options); unfold setLevel; cbv beta iota;
    rewrite (os_path_exists_run w _ _ Hn), He; reflexivity.
Qed.

Lemma main_start argv0 rest options target r :
  parser rest = inr (options, "start" :: target :: r) ->
  In target roles ->
  path_exists w (program_of options target) = true ->
  main w (argv0 :: rest) initial =
    (code <- start w (getcwd w) (program_of options target) (pidfile_of options target) ;;
     (if (code =? 0)%Z then
        logging INFO ("The target " ++ dq ++ target ++ dq
                        ++ " has been started correctly.")
      else ret tt) ;;
     ret (Some code)) (parsed_state options).
Proof.
  intros Hp Ht He. pose proof (path_exists_nul_free w _ He) as Hn.
  pose proof (stat_path_exists w _ Hn) as Hs. rewrite He in Hs.
  enter_main Hp.
  unfold parsed_state, os_path_exists, ret, bind.
  pick_role Ht; unfold program_of, pidfile_of in *; cbn [nth]; eval_eqb;
    cbv beta iota; rewrite Hn, Hs; destruct (debug options); reflexivity.
Qed.

Lemma main_stop argv0 rest options target r :
  parser rest = inr (options, "stop" :: target :: r) ->
  In target roles ->
  path_exists w (program_of options target) = true ->
  main w (argv0 :: rest) initial =
    (code <- stop w (pidfile_of options target) ;;
     (if (code =? 0)%Z then
        logging INFO ("The target " ++ dq ++ target ++ dq
                        ++ " has been stopped correctly.")
      else ret tt) ;;
     ret (Some code)) (parsed_state options).
Proof.
  intros Hp Ht He. pose proof (path_exists_nul_free w _ He) as Hn.
  pose proof (stat_path_exists w _ Hn) as Hs. rewrite He in Hs.
  enter_main Hp.
  unfold parsed_state, os_path_exists, ret, bind.
  pick_role Ht; unfold program_of, pidfile_of in *; cbn [nth]; eval_eqb;
    cbv beta iota; rewrite Hn, Hs; destruct (debug options); reflexivity.
Qed.

Lemma main_restart argv0 rest options target r :
  parser rest = inr (options, "restart" :: target :: r) ->
  In target roles ->
  path_exists w (program_of options target) = true ->
  main w (argv0 :: rest) initial =
    (code_stop <- stop w (pidfile_of options target) ;;
     code_start <- start w (getcwd w) (program_of options target)
                      (pidfile_of options target) ;;
     if negb (code_stop =? 0)%Z || negb (code_start =? 0)%Z then
       returning (exit 1 ("Error while restarting the target " ++ dq
                            ++ target ++ dq ++ "."))
     else ret (Some 0%Z)) (parsed_state options).
Proof.
  intros Hp Ht He. pose proof (path_exists_nul_free w _ He) as Hn.
  pose proof (stat_path_exists w _ Hn) as Hs. rewrite He in Hs.
  enter_main Hp.
  unfold parsed_state, os_path_exists, ret, bind.
  pick_role Ht; unfold program_of, pidfile_of in *; cbn [nth]; eval_eqb;
    cbv beta iota; rewrite Hn, Hs; destruct (debug options); reflexivity.
Qed.

Lemma main_status argv0 rest options target r :
  parser rest = inr (options, "status" :: target :: r) ->
  In target roles ->
  path_exists w (program_of options target) = true ->
  main w (argv0 :: rest) initial =
    (content <- open w (pidfile_of options target) ;;
     alive <- os_path_exists w (join "/proc" [strip (readline content)]) ;;
     (if alive then
        logging INFO ("The target " ++ dq ++ target ++ dq ++ " is running.")
      else
        logging INFO ("The target " ++ dq ++ target ++ dq ++ " is stopped.")) ;;
     ret (Some 0%Z)) (parsed_state options).
Proof.
  intros Hp Ht He. pose proof (path_exists_nul_free w _ He) as Hn.
  pose proof (stat_path_exists w _ Hn) as Hs. rewrite He in Hs.
  enter_main Hp.
  unfold parsed_state, os_path_exists, ret, bind.
  pick_role Ht; unfold program_of, pidfile_of in *; cbn [nth]; eval_eqb;
    cbv beta iota; rewrite Hn, Hs; destruct (debug options); reflexivity.
Qed.

(** A program path with a NUL byte ends [main] at the check of the
    program file. *)
Lemma main_program_nul argv0 rest options command target r :
  parser rest = inr (options, command :: target :: r) ->
  bad_arguments (command :: target :: r) = false ->
  has_nul (program_of options target) = true ->
  main w (argv0 :: rest) initial = (Raise TypeError, parsed_state options).
Proof.
  intros Hp Hb Hn. enter_main Hp. rewrite Hb.
  destruct (bad_arguments_false _ Hb) as (c & t & r' & E & _ & Ht).
  injection E as <- <- <-. unfold parsed_state.
  pick_role Ht; unfold program_of in *; cbn [nth]; eval_eqb;
    destruct (debug options); unfold setLevel; cbv beta iota;
    rewrite (os_path_exists_raises w _ _ Hn); reflexivity.
Qed.

(** The exit status and the events of a run, from the result of [main]. *)
Lemma run_returns argv code s :
  main w argv initial = (Val (Some code), s) ->
  run w argv = (code, trace s).
Proof. intros H. unfold run, script, bind, raise. rewrite H. reflexivity. Qed.

Lemma run_raises argv e s :
  main w argv initial = (Raise e, s) ->
  run w argv = (status_of (@Raise unit e), trace s).
Proof. intros H. unfold run, script, bind. rewrite H. reflexivity. Qed.

End Dispatch.

(* ================================================================== *)
(** ** The parser: enough passes, and options it reads independently *)

Section ParserFacts.
Context {V : Type}.
Variable long short : list (string * Action V).

Lemma get_In s (wordmap : list (string * Action V)) entry :
  get s wordmap = Some entry -> In entry wordmap.
Proof. unfold get. intros H. now apply find_some in H. Qed.

Lemma _match_abbrev_In s (wordmap : list (string * Action V)) entry :
  _match_abbrev s wordmap = inr entry -> In entry wordmap.
Proof.
  unfold _match_abbrev. destruct (get s wordmap) as [e|] eqn:G.
  - intros [= <-]. eapply get_In; eauto.
  - destruct (filter _ wordmap) as [|e [|e' l]] eqn:F; try discriminate.
    intros [= <-].
    assert (In e (filter (fun kv => startswith (fst kv) s) wordmap)) as Hin
        by (rewrite F; left; reflexivity).
    now apply filter_In in Hin.
Qed.

Lemma process_rargs option value rargs (values : V) rargs' values' :
  process option value rargs values = Next rargs' values' -> rargs' = rargs.
Proof.
  destruct option, value; simpl; intros [= <- _]; reflexivity || discriminate.
Qed.

Lemma _process_long_opt_shrinks arg rest (values : V) rargs' values' :
  _process_long_opt long arg rest values = Next rargs' values' ->
  (length rargs' <= length rest)%nat.
Proof.
  unfold _process_long_opt.
  destruct (split_eq arg) as [[opt next_arg]|];
    destruct (_match_abbrev _ long) as [e|[opt' option]]; try discriminate;
    destruct (takes_value option); try discriminate.
  - intros H. apply process_rargs in H. subst. simpl. lia.
  - destruct rest as [|value rest']; try discriminate.
    intros H. apply process_rargs in H. subst. simpl. lia.
  - intros H. apply process_rargs in H. subst. lia.
Qed.

Lemma short_opts_loop_shrinks chars : forall rest (values : V) rargs' values',
  short_opts_loop short chars rest values = Next rargs' values' ->
  (length rargs' <= length rest)%nat.
Proof.
  induction chars as [|ch chars IH]; intros rest values rargs' values'; simpl.
  - intros [= <- _]. lia.
  - destruct (get _ short) as [[k option]|]; try discriminate.
    destruct (takes_value option).
    + destruct (chars =? "").
      * destruct rest as [|value rest']; try discriminate.
        intros H. apply process_rargs in H. subst. simpl. lia.
      * intros H. apply process_rargs in H. subst. simpl. lia.
    + destruct (process option None rest values) as [rargs1 values1|x] eqn:P;
        try discriminate.
      apply process_rargs in P. subst rargs1.
      intros H. now apply IH in H.
Qed.

(** With at least [length rargs] passes allowed, the loop of
    [_process_args] ends by itself: allowing more changes nothing. *)
Lemma _process_args_fuel fuel : forall fuel' largs rargs (values : V),
  (length rargs <= fuel)%nat ->
  (length rargs <= fuel')%nat ->
  _process_args long short fuel largs rargs values
    = _process_args long short fuel' largs rargs values.
Proof.
  induction fuel as [|fuel IH]; intros fuel' largs rargs values H H'.
  - destruct rargs; [|simpl in H; lia]. destruct fuel'; reflexivity.
  - destruct rargs as [|arg rest]; [destruct fuel'; reflexivity|].
    destruct fuel' as [|fuel']; [simpl in H'; lia|].
    simpl in H, H'. simpl.
    destruct (arg =? "--"); [reflexivity|].
    destruct (substring 0 2 arg =? "--").
    + destruct (_process_long_opt long arg rest values) as [rargs' values'|x] eqn:P;
        [|reflexivity].
      apply _process_long_opt_shrinks in P. apply IH; lia.
    + destruct ((substring 0 1 arg =? "-") && (1 <? String.length arg)%nat).
      * destruct (_process_short_opts short arg rest values)
          as [rargs' values'|x] eqn:P; [|reflexivity].
        apply short_opts_loop_shrinks in P. apply IH; lia.
      * apply IH; lia.
Qed.

End ParserFacts.

(* ================================================================== *)
(** ** The parser of the script never looks at the values it stores *)

Section UserOption.

Lemma process_same k option value rest1 rest2 o1 o2 :
  In (k, option) long_opt ->
  same_but_user o1 o2 ->
  same_pass rest1 rest2 (process option value rest1 o1)
            (process option value rest2 o2).
Proof.
  intros Hin (Hs & Hw & Hd). simpl in Hin.
  destruct Hin as [E|[E|[E|[E|[E|[]]]]]]; injection E as <- <-;
    destruct value; simpl; unfold same_but_user; simpl; auto.
Qed.

Lemma long_no_await arg rest1 rest2 o1 o2 :
  awaits_value arg = false ->
  (substring 0 2 arg =? "--") = true ->
  same_but_user o1 o2 ->
  same_pass rest1 rest2 (_process_long_opt long_opt arg rest1 o1)
            (_process_long_opt long_opt arg rest2 o2).
Proof.
  unfold awaits_value, _process_long_opt. intros Ha Hl Ho.
  rewrite Hl in Ha. simpl in Ha.
  destruct (split_eq arg) as [[opt next_arg]|].
  - destruct (_match_abbrev opt long_opt) as [e|[k option]] eqn:M;
      [reflexivity|].
    apply _match_abbrev_In in M.
    destruct (takes_value option); [|reflexivity].
    now apply (process_same k).
  - destruct (_match_abbrev arg long_opt) as [e|[k option]] eqn:M;
      [reflexivity|].
    apply _match_abbrev_In in M. rewrite Ha.
    now apply (process_same k).
Qed.

Lemma long_await arg value rest1 rest2 o1 o2 :
  awaits_value arg = true ->
  same_but_user o1 o2 ->
  same_pass rest1 rest2 (_process_long_opt long_opt arg (value :: rest1) o1)
            (_process_long_opt long_opt arg (value :: rest2) o2).
Proof.
  unfold awaits_value, _process_long_opt. intros Ha Ho.
  apply andb_prop in Ha. destruct Ha as [_ Ha].
  destruct (split_eq arg) as [[opt next_arg]|]; [discriminate|].
  destruct (_match_abbrev arg long_opt) as [e|[k option]] eqn:M;
    [discriminate|].
  apply _match_abbrev_In in M. rewrite Ha.
  now apply (process_same k).
Qed.

Lemma long_await_nothing arg o1 o2 :
  awaits_value arg = true ->
  _process_long_opt long_opt arg [] o1 = _process_long_opt long_opt arg [] o2 /\
  exists x, _process_long_opt long_opt arg [] o1 = Leave x.
Proof.
  unfold awaits_value, _process_long_opt. intros Ha.
  apply andb_prop in Ha. destruct Ha as [_ Ha].
  destruct (split_eq arg) as [[opt next_arg]|]; [discriminate|].
  destruct (_match_abbrev arg long_opt) as [e|[k option]]; [discriminate|].
  rewrite Ha. split; [reflexivity|]. eexists; reflexivity.
Qed.

Lemma short_same arg rest1 rest2 o1 o2 :
  same_but_user o1 o2 ->
  same_pass rest1 rest2 (_process_short_opts short_opt arg rest1 o1)
            (_process_short_opts short_opt arg rest2 o2).
Proof.
  intros Ho. unfold _process_short_opts.
  destruct (substring 1 (String.length arg) arg) as [|ch chars];
    cbn [short_opts_loop]; [simpl; auto|].
  match goal with
  | |- context [get ?opt short_opt] =>
      destruct (get opt short_opt) as [[k option]|] eqn:G; [|reflexivity]
  end.
  apply get_In in G. simpl in G. destruct G as [E|[]].
  injection E as <- <-. reflexivity.
Qed.

(** A pass over the same arguments, from values that differ at most in
    [user]. *)
Lemma long_same arg rest o1 o2 :
  (substring 0 2 arg =? "--") = true ->
  same_but_user o1 o2 ->
  exists rest', same_pass rest' rest' (_process_long_opt long_opt arg rest o1)
                          (_process_long_opt long_opt arg rest o2).
Proof.
  intros Hl Ho. destruct (awaits_value arg) eqn:Ha.
  - destruct rest as [|value rest'].
    + exists []. destruct (long_await_nothing arg o1 o2 Ha) as (E & x & Ex).
      rewrite <- E, Ex. reflexivity.
    + exists rest'. now apply long_await.
  - exists rest. now apply long_no_await.
Qed.

Lemma _process_args_same fuel : forall largs rargs o1 o2,
  same_but_user o1 o2 ->
  same_processed (_process_args long_opt short_opt fuel largs rargs o1)
                 (_process_args long_opt short_opt fuel largs rargs o2).
Proof.
  induction fuel as [|fuel IH]; intros largs rargs o1 o2 Ho.
  - simpl. destruct rargs; simpl; auto.
  - destruct rargs as [|arg rest]; [simpl; auto|]. simpl.
    destruct (arg =? "--"); [simpl; auto|].
    destruct (substring 0 2 arg =? "--") eqn:Hl.
    + destruct (long_same arg rest o1 o2 Hl Ho) as (rest' & P).
      destruct (_process_long_opt long_opt arg rest o1),
               (_process_long_opt long_opt arg rest o2);
        simpl in P; try contradiction.
      * destruct P as (-> & -> & P). now apply IH.
      * subst. reflexivity.
    + destruct ((substring 0 1 arg =? "-") && (1 <? String.length arg)%nat).
      * pose proof (short_same arg rest rest o1 o2 Ho) as P.
        destruct (_process_short_opts short_opt arg rest o1),
                 (_process_short_opts short_opt arg rest o2);
          simpl in P; try contradiction.
        -- destruct P as (-> & -> & P). now apply IH.
        -- subst. reflexivity.
      * now apply IH.
Qed.

Lemma awaits_value_not_end arg : awaits_value arg = true -> arg <> "--".
Proof. intros H ->. discriminate H. Qed.

Lemma user_variant_length r1 r2 :
  user_variant r1 r2 -> length r1 = length r2.
Proof. induction 1; simpl; congruence. Qed.

Lemma _process_args_user_variant r1 r2 :
  user_variant r1 r2 ->
  forall fuel largs o1 o2,
    same_but_user o1 o2 ->
    (length r1 <= fuel)%nat ->
    same_processed (_process_args long_opt short_opt fuel largs r1 o1)
                   (_process_args long_opt short_opt fuel largs r2 o2).
Proof.
  induction 1 as [opt u1 u2 post Hopt|opt u1 u2 post Hopt
                 |arg r1 r2 Hend Ha Hv IH|arg value r1 r2 Ha Hv IH];
    intros fuel largs o1 o2 Ho Hlen;
    (destruct fuel as [|fuel]; [simpl in Hlen; lia|]).
  - assert (same_but_user (set_user u1 o1) (set_user u2 o2)) as Hu
        by (destruct Ho as (? & ? & ?); unfold same_but_user; simpl; auto).
    simpl in Hopt.
    destruct Hopt as [<-|[<-|[<-|[<-|[]]]]];
      apply (_process_args_same fuel largs post _ _ Hu).
  - assert (same_but_user (set_user u1 o1) (set_user u2 o2)) as Hu
        by (destruct Ho as (? & ? & ?); unfold same_but_user; simpl; auto).
    simpl in Hopt.
    destruct Hopt as [<-|[<-|[<-|[<-|[]]]]];
      apply (_process_args_same fuel largs post _ _ Hu).
  - simpl in Hlen. simpl.
    apply String.eqb_neq in Hend. rewrite Hend.
    destruct (substring 0 2 arg =? "--") eqn:Hl.
    + pose proof (long_no_await arg r1 r2 o1 o2 Ha Hl Ho) as P.
      destruct (_process_long_opt long_opt arg r1 o1),
               (_process_long_opt long_opt arg r2 o2);
        simpl in P; try contradiction.
      * destruct P as (-> & -> & P). apply IH; [assumption|lia].
      * subst. reflexivity.
    + destruct ((substring 0 1 arg =? "-") && (1 <? String.length arg)%nat).
      * pose proof (short_same arg r1 r2 o1 o2 Ho) as P.
        destruct (_process_short_opts short_opt arg r1 o1),
                 (_process_short_opts short_opt arg r2 o2);
          simpl in P; try contradiction.
        -- destruct P as (-> & -> & P). apply IH; [assumption|lia].
        -- subst. reflexivity.
      * apply IH; [assumption|lia].
  - simpl in Hlen.
    pose proof (awaits_value_not_end arg Ha) as Hend.
    apply String.eqb_neq in Hend.
    assert ((substring 0 2 arg =? "--") = true) as Hl
        by (unfold awaits_value in Ha; now apply andb_prop in Ha).
    cbn [_process_args]. rewrite Hend, Hl.
    pose proof (long_await arg value r1 r2 o1 o2 Ha Ho) as P.
    destruct (_process_long_opt long_opt arg (value :: r1) o1),
             (_process_long_opt long_opt arg (value :: r2) o2);
      simpl in P; try contradiction.
    + destruct P as (-> & -> & P). apply IH; [assumption|lia].
    + subst. reflexivity.
Qed.

Lemma parser_user_variant r1 r2 :
  user_variant r1 r2 -> same_parse (parser r1) (parser r2).
Proof.
  intros Hv. unfold parser, parse_args.
  rewrite <- (user_variant_length _ _ Hv).
  pose proof (_process_args_user_variant r1 r2 Hv (length r1) [] defaults defaults)
    as P.
  assert (same_but_user defaults defaults) as Hd by (repeat split).
  specialize (P Hd (Nat.le_refl _)).
  destruct (_process_args long_opt short_opt (length r1) [] r1 defaults),
           (_process_args long_opt short_opt (length r1) [] r2 defaults);
    simpl in P; try contradiction.
  - destruct P as (-> & -> & P). simpl. auto.
  - subst. reflexivity.
Qed.

(** [main] reads [server_dir], [webserver_dir] and [debug] only. *)
Lemma run_same_parse w argv0 r1 r2 :
  same_parse (parser r1) (parser r2) ->
  run w (argv0 :: r1) = run w (argv0 :: r2).
Proof.
  intros H. unfold run, script, main, bind, argv_0, parser_parse_args, ret.
  change (skipn 1 (argv0 :: r1)) with r1.
  change (skipn 1 (argv0 :: r2)) with r2.
  destruct (parser r1) as [x1|[o1 args1]], (parser r2) as [x2|[o2 args2]];
    simpl in H; try contradiction.
  - subst. reflexivity.
  - destruct H as ((Hs & Hw & Hd) & ->).
    destruct o1, o2. simpl in Hs, Hw, Hd. subst. reflexivity.
Qed.

End UserOption.

(* ================================================================== *)
(** ** Return codes of the external mechanism (claims C2, C3, C10) *)

Section ReturnCodes.
Variable w : World.

(** C2, as amended.  For every return code [r >= 0] of the external
    start mechanism, [start] returns what the specification says: 0 and no
    error when [r = 0] ([Success]); 1 with the message that the process is
    already running when [r = 1] ([AlreadyInDesiredState]); and, when
    [r > 1], [r] itself with a message that holds the output followed by
    the error stream ([Failure]). *)
Theorem start_reads_returncode directory program pidfile s r output error :
  communicate w (length (spawned (trace s)))
              (START_COMMAND program directory pidfile)
    = Completed r output error ->
  (0 <= r)%Z ->
  exists s',
    start w directory program pidfile s
      = (Val (code_of (interpret start_already start_failure r output error)), s')
    /\ records ERROR (trace s')
       = (records ERROR (trace s)
            ++ errors_of (interpret start_already start_failure r output error))%list.
Proof.
  intros H Hr.
  destruct (start_run w directory program pidfile s r output error H)
    as (s' & E & _ & _ & He & _).
  rewrite read_returncode_interpret in E, He by assumption.
  exists s'. split; assumption.
Qed.

(** C3, as amended.  For every return code [r >= 0] of the external stop
    mechanism, [stop] returns what the specification says: 0 and no error
    when [r = 0] ([Success]); 1 with the message that the process is not
    running when [r = 1] ([AlreadyInDesiredState]); and, when [r > 1],
    [r] itself with a message that holds the output followed by the error
    stream ([Failure]). *)
Theorem stop_reads_returncode pidfile s r output error :
  communicate w (length (spawned (trace s))) (STOP_COMMAND pidfile)
    = Completed r output error ->
  (0 <= r)%Z ->
  exists s',
    stop w pidfile s
      = (Val (code_of (interpret stop_already stop_failure r output error)), s')
    /\ records ERROR (trace s')
       = (records ERROR (trace s)
            ++ errors_of (interpret stop_already stop_failure r output error))%list.
Proof.
  intros H Hr.
  destruct (stop_run w pidfile s r output error H)
    as (s' & E & _ & _ & He & _).
  rewrite read_returncode_interpret in E, He by assumption.
  exists s'. split; assumption.
Qed.

Lemma operation_run options command target r output error :
  In command ["start"; "stop"] ->
  communicate w 0 (operation_command w options command target)
    = Completed r output error ->
  exists already failure s',
    operation w options command target (parsed_state options)
      = (Val (code_of (read_returncode already failure r output error)), s')
    /\ operation_effect (parsed_state options) s'
                        (operation_command w options command target)
                        (read_returncode already failure r output error).
Proof.
  intros Hc H. simpl in Hc.
  destruct Hc as [<-|[<-|[]]]; unfold operation, operation_command in *;
    simpl in H |- *.
  - exists start_already, start_failure. now apply start_run.
  - exists stop_already, stop_failure. now apply stop_run.
Qed.

Lemma main_operation argv0 rest options command target r0 :
  parser rest = inr (options, command :: target :: r0) ->
  In command ["start"; "stop"] ->
  In target roles ->
  path_exists w (program_of options target) = true ->
  main w (argv0 :: rest) initial =
    (code <- operation w options command target ;;
     (if (code =? 0)%Z then logging INFO (success_message command target)
      else ret tt) ;;
     ret (Some code)) (parsed_state options).
Proof.
  intros Hp Hc Ht He. simpl in Hc.
  destruct Hc as [<-|[<-|[]]].
  - now apply main_start with (r := r0).
  - now apply main_stop with (r := r0).
Qed.

(** C10.  When the external mechanism ends with a negative return code
    (the supervision process was killed by a signal), the operation
    behind [start] and behind [stop] returns 0, and the invocation reports
    success: it exits with status 0, logs no error, and logs that the
    target has been started (stopped) correctly. *)
Theorem negative_returncode_success argv0 rest options command target r0
        r output error :
  parser rest = inr (options, command :: target :: r0) ->
  In command ["start"; "stop"] ->
  In target roles ->
  path_exists w (program_of options target) = true ->
  communicate w 0 (operation_command w options command target)
    = Completed r output error ->
  (r < 0)%Z ->
  (exists s', operation w options command target (parsed_state options)
              = (Val 0%Z, s')) /\
  fst (run w (argv0 :: rest)) = 0%Z /\
  records ERROR (snd (run w (argv0 :: rest))) = [] /\
  records INFO (snd (run w (argv0 :: rest))) = [success_message command target].
Proof.
  intros Hp Hc Ht He H Hr.
  destruct (operation_run options command target r output error Hc H)
    as (already & failure & s' & E & Hl & _ & Herr & Hinfo).
  rewrite read_returncode_negative in E, Herr by assumption.
  simpl in E, Herr, Hinfo, Hl.
  split; [exists s'; exact E|].
  assert (main w (argv0 :: rest) initial =
            (Val (Some 0%Z),
             mkState (level s')
                     (trace s' ++ [Log INFO (success_message command target)])))
    as Hm.
  { rewrite (main_operation argv0 rest options command target r0 Hp Hc Ht He).
    unfold bind. rewrite E. simpl. unfold logging, emit, ret.
    rewrite Hl. unfold parsed_state. destruct (debug options); reflexivity. }
  rewrite (run_returns w _ _ _ Hm). simpl.
  rewrite !records_app, Herr, Hinfo. auto.
Qed.

End ReturnCodes.

(* ================================================================== *)
(** ** Restart and repeated stop (claims C1, C8) *)

Section Composition.

(** C1.  [restart] runs the stop command and then, whatever code [stop]
    returned, the start command; the invocation exits with status 1 if
    and only if one of the two operations returned a nonzero code, and
    with status 0 if and only if both returned 0. *)
Theorem restart_stop_then_start w argv0 rest options target r0
        r1 output1 error1 r2 output2 error2 :
  parser rest = inr (options, "restart" :: target :: r0) ->
  In target roles ->
  path_exists w (program_of options target) = true ->
  communicate w 0 (STOP_COMMAND (pidfile_of options target))
    = Completed r1 output1 error1 ->
  communicate w 1 (START_COMMAND (program_of options target) (getcwd w)
                                 (pidfile_of options target))
    = Completed r2 output2 error2 ->
  exists s1 s2 code_stop code_start,
    stop w (pidfile_of options target) (parsed_state options)
      = (Val code_stop, s1) /\
    start w (getcwd w) (program_of options target) (pidfile_of options target) s1
      = (Val code_start, s2) /\
    spawned (snd (run w (argv0 :: rest)))
      = [STOP_COMMAND (pidfile_of options target);
         START_COMMAND (program_of options target) (getcwd w)
                       (pidfile_of options target)] /\
    (fst (run w (argv0 :: rest)) = 1%Z
       <-> code_stop <> 0%Z \/ code_start <> 0%Z) /\
    (fst (run w (argv0 :: rest)) = 0%Z
       <-> code_stop = 0%Z /\ code_start = 0%Z).
Proof.
  intros Hp Ht He H1 H2.
  destruct (stop_run w (pidfile_of options target) (parsed_state options)
                     r1 output1 error1 H1)
    as (s1 & E1 & Hl1 & Hs1 & _ & _).
  simpl in Hs1.
  assert (length (spawned (trace s1)) = 1%nat) as Hn1 by (rewrite Hs1; reflexivity).
  rewrite <- Hn1 in H2.
  destruct (start_run w (getcwd w) (program_of options target)
                      (pidfile_of options target) s1 r2 output2 error2 H2)
    as (s2 & E2 & Hl2 & Hs2 & _ & _).
  rewrite Hs1 in Hs2. simpl in Hs2.
  set (code_stop := code_of (read_returncode stop_already stop_failure
                                             r1 output1 error1)) in *.
  set (code_start := code_of (read_returncode start_already start_failure
                                              r2 output2 error2)) in *.
  exists s1, s2, code_stop, code_start.
  split; [exact E1|]. split; [exact E2|].
  pose proof (main_restart w argv0 rest options target r0 Hp Ht He) as Hm.
  unfold bind in Hm. rewrite E1, E2 in Hm.
  destruct (negb (code_stop =? 0)%Z || negb (code_start =? 0)%Z) eqn:C.
  - unfold returning, bind in Hm. rewrite exit_run in Hm. unfold ret in Hm.
    rewrite (run_returns w _ _ _ Hm). simpl.
    rewrite spawned_app, Hs2. simpl.
    apply orb_true_iff in C.
    rewrite !negb_true_iff, !Z.eqb_neq in C.
    repeat split; try reflexivity; try discriminate; intros; try assumption; lia.
  - unfold ret in Hm. rewrite (run_returns w _ _ _ Hm). simpl.
    apply orb_false_iff in C.
    rewrite !negb_false_iff, !Z.eqb_eq in C.
    repeat split; try assumption; try discriminate; try tauto; intros; lia.
Qed.

(** C8.  [stop] invoked twice on a running target, the external mechanism
    returning 0 the first time and 1 the second: the first invocation
    gives [Success] (status 0, no error logged), the second
    [AlreadyInDesiredState] (status 1 with the message that the process
    is not running), and what the second one logs is no [Failure]
    message. *)
Theorem stop_twice w1 w2 argv0 rest options target r0
        output1 error1 output2 error2 :
  parser rest = inr (options, "stop" :: target :: r0) ->
  In target roles ->
  path_exists w1 (program_of options target) = true ->
  path_exists w2 (program_of options target) = true ->
  communicate w1 0 (STOP_COMMAND (pidfile_of options target))
    = Completed 0 output1 error1 ->
  communicate w2 0 (STOP_COMMAND (pidfile_of options target))
    = Completed 1 output2 error2 ->
  (fst (run w1 (argv0 :: rest)) = code_of Success /\
   records ERROR (snd (run w1 (argv0 :: rest))) = errors_of Success) /\
  (fst (run w2 (argv0 :: rest)) = code_of (AlreadyInDesiredState stop_already) /\
   records ERROR (snd (run w2 (argv0 :: rest)))
     = errors_of (AlreadyInDesiredState stop_already)) /\
  (forall code captured,
      records ERROR (snd (run w2 (argv0 :: rest)))
        <> errors_of (Failure code (stop_failure captured))).
Proof.
  intros Hp Ht He1 He2 H1 H2.
  destruct (stop_run w1 (pidfile_of options target) (parsed_state options)
                     0 output1 error1 H1)
    as (s1 & E1 & Hl1 & _ & Herr1 & _).
  destruct (stop_run w2 (pidfile_of options target) (parsed_state options)
                     1 output2 error2 H2)
    as (s2 & E2 & _ & _ & Herr2 & _).
  simpl in E1, E2, Herr1, Herr2, Hl1.
  pose proof (main_stop w1 argv0 rest options target r0 Hp Ht He1) as Hm1.
  pose proof (main_stop w2 argv0 rest options target r0 Hp Ht He2) as Hm2.
  unfold bind in Hm1, Hm2. rewrite E1 in Hm1. rewrite E2 in Hm2.
  change (0 =? 0)%Z with true in Hm1. change (1 =? 0)%Z with false in Hm2.
  cbv beta iota in Hm1, Hm2.
  assert (exists s1', logging INFO ("The target " ++ dq ++ target ++ dq
                                       ++ " has been stopped correctly.") s1
                      = (Val tt, s1')
                      /\ records ERROR (trace s1') = []) as (s1' & L & Herr1').
  { unfold logging, emit.
    destruct (levelno (level s1) <=? levelno INFO)%Z.
    - eexists; split; [reflexivity|]. simpl.
      rewrite records_app, Herr1. reflexivity.
    - exists s1. auto. }
  rewrite L in Hm1. unfold ret in Hm1, Hm2.
  rewrite (run_returns w1 _ _ _ Hm1), (run_returns w2 _ _ _ Hm2). simpl.
  rewrite Herr1', Herr2.
  repeat split; try reflexivity.
  intros code captured. discriminate.
Qed.

End Composition.

(* ================================================================== *)
(** ** The first line of the PID file *)

Section PidFile.

Lemma readline_only line :
  no_newline line = true -> readline line = line.
Proof.
  induction line as [|c line IH]; simpl; [reflexivity|].
  intros H. apply andb_prop in H. destruct H as [Hc Hl].
  apply negb_true_iff in Hc. rewrite Hc, IH by assumption. reflexivity.
Qed.

Lemma readline_more line rest :
  no_newline line = true -> readline (line ++ nl ++ rest) = line ++ nl.
Proof.
  change (line ++ nl ++ rest) with (line ++ String "010"%char rest).
  induction line as [|c line IH]; simpl; [reflexivity|].
  intros H. apply andb_prop in H. destruct H as [Hc Hl].
  apply negb_true_iff in Hc. rewrite Hc, IH by assumption. reflexivity.
Qed.

Lemma rstrip_space s c :
  isspace c = true -> rstrip (s ++ String c "") = rstrip s.
Proof.
  intros Hc. induction s as [|a s IH]; simpl.
  - now rewrite Hc.
  - now rewrite IH.
Qed.

Lemma strip_newline s : strip (s ++ nl) = strip s.
Proof.
  unfold strip. induction s as [|a s IH].
  - reflexivity.
  - simpl. destruct (isspace a); [exact IH|].
    change (String a (s ++ nl)) with (String a s ++ nl).
    apply rstrip_space. reflexivity.
Qed.

(** [readline], then [strip], give the first line without the white
    space around it. *)
Lemma strip_readline line content :
  first_line line content -> strip (readline content) = strip line.
Proof.
  intros [H|rest H].
  - now rewrite readline_only.
  - rewrite readline_more by assumption. apply strip_newline.
Qed.

(** [os.path.join('/proc', pid)] is [/proc/pid] unless [pid] starts at
    the root. *)
Lemma join_proc pid :
  startswith pid "/" = false -> join "/proc" [pid] = "/proc/" ++ pid.
Proof. intros H. unfold join. simpl. unfold join_step. now rewrite H. Qed.

End PidFile.

(* ================================================================== *)
(** ** Status (claims C4, C5) *)

Section Status.
Variable w : World.

(** C4, as amended.  When the PID file can be read and the first line of
    it, stripped of the white space around it, is a process id [p] that
    holds no NUL byte and does not begin with [/], [status] reads the
    file, reports Running exactly when the path [/proc/p] exists and
    Stopped otherwise, and exits with status 0. *)
Theorem status_reads_process_table argv0 rest options target r0 content line :
  parser rest = inr (options, "status" :: target :: r0) ->
  In target roles ->
  path_exists w (program_of options target) = true ->
  file_content w (pidfile_of options target) = Some content ->
  first_line line content ->
  has_nul (strip line) = false ->
  startswith (strip line) "/" = false ->
  run w (argv0 :: rest) =
    (0%Z,
     [Open (pidfile_of options target);
      Log INFO (if path_exists w ("/proc/" ++ strip line)
                then running_message target
                else stopped_message target)]).
Proof.
  intros Hp Ht He Hf Hl Hn Hs.
  pose proof (main_status w argv0 rest options target r0 Hp Ht He) as Hm.
  unfold open, bind, emit, ret in Hm. rewrite Hf in Hm.
  cbv beta iota in Hm.
  rewrite (strip_readline line content Hl), (join_proc _ Hs) in Hm.
  rewrite (os_path_exists_run w ("/proc/" ++ strip line) _ Hn) in Hm.
  unfold running_message, stopped_message.
  destruct (path_exists w ("/proc/" ++ strip line));
    unfold parsed_state, logging, emit in Hm;
    destruct (debug options); simpl in Hm;
    rewrite (run_returns w _ _ _ Hm); reflexivity.
Qed.

(** C5.  When the PID file cannot be opened, [status] ends in the
    uncaught [IOError] of [open]: a failure of its own kind (no other
    path of the script ends in an exception of [open], and none of its
    [return]s is reached), with exit status 1, in which nothing is
    reported: neither Stopped nor Running is logged. *)
Theorem status_without_pidfile argv0 rest options target r0 :
  parser rest = inr (options, "status" :: target :: r0) ->
  In target roles ->
  path_exists w (program_of options target) = true ->
  file_content w (pidfile_of options target) = None ->
  fst (script w (argv0 :: rest) initial)
    = Raise (IOError (pidfile_of options target)) /\
  run w (argv0 :: rest) = (1%Z, [Open (pidfile_of options target)]) /\
  records INFO (snd (run w (argv0 :: rest))) = [].
Proof.
  intros Hp Ht He Hf.
  pose proof (main_status w argv0 rest options target r0 Hp Ht He) as Hm.
  unfold open, bind, emit, raise in Hm. rewrite Hf in Hm.
  cbv beta iota in Hm. simpl in Hm.
  rewrite (run_raises w _ _ _ Hm).
  unfold script, bind. rewrite Hm. simpl. auto.
Qed.

End Status.

(* ================================================================== *)
(** ** Checks made before any operation (claims C6, C7) *)

Section Checks.
Variable w : World.

Lemma bad_arguments_true args :
  (length args < 2)%nat \/
  ~ In (nth 0 args "") ["start"; "stop"; "restart"; "status"] \/
  ~ In (nth 1 args "") roles ->
  bad_arguments args = true.
Proof.
  intros H. destruct (bad_arguments args) eqn:B; [reflexivity|].
  destruct (bad_arguments_false args B) as (c & t & r & -> & Hc & Ht).
  simpl in H. destruct H as [H|[H|H]]; [lia|contradiction|contradiction].
Qed.

Lemma bad_arguments_roles command target r :
  In command ["start"; "stop"; "restart"; "status"] ->
  In target roles ->
  bad_arguments (command :: target :: r) = false.
Proof.
  intros Hc Ht. simpl in Hc, Ht.
  destruct Hc as [<-|[<-|[<-|[<-|[]]]]], Ht as [<-|[<-|[]]]; reflexivity.
Qed.

(** C6.  For every command and every role, whatever the configured
    directories, when the program path resolved for the role does not
    exist, the invocation logs that the program file does not exist and
    exits with status 1; these are its only events: no command is run and
    no PID file is opened.  (A path with a NUL byte, which no path made
    of command-line arguments is, does not exist either: the check itself
    then raises the [TypeError] of [os.stat], and the invocation exits
    with status 1 as well, with no event at all.) *)
Theorem missing_program_exits_first argv0 rest options command target r0 :
  parser rest = inr (options, command :: target :: r0) ->
  In command ["start"; "stop"; "restart"; "status"] ->
  In target roles ->
  path_exists w (program_of options target) = false ->
  run w (argv0 :: rest) =
    (1%Z,
     if has_nul (program_of options target) then []
     else [Log ERROR ("The '" ++ target ++ "' program file doesn't exist: "
                        ++ program_of options target ++ ".")]) /\
  spawned (snd (run w (argv0 :: rest))) = [].
Proof.
  intros Hp Hc Ht He.
  pose proof (bad_arguments_roles command target r0 Hc Ht) as Hb.
  destruct (has_nul (program_of options target)) eqn:Hn.
  - pose proof (main_program_nul w argv0 rest options command target r0
                                 Hp Hb Hn) as Hm.
    rewrite (run_raises w _ _ _ Hm). simpl. auto.
  - pose proof (main_missing_program w argv0 rest options command target r0
                                     Hp Hb Hn He) as Hm.
    unfold returning, bind in Hm. rewrite exit_run in Hm. unfold ret in Hm.
    rewrite (run_returns w _ _ _ Hm). simpl.
    unfold parsed_state. destruct (debug options); simpl; auto.
Qed.

(** C7, as amended.  For every invocation whose options the parser
    accepts, when there are fewer than two positional arguments, or the
    command is not one of start, stop, restart, status, or the target is
    not one of the two roles, the program logs the usage error and exits
    with status 1; this is its only event: no command is run. *)
Theorem invalid_arguments_exit_1 argv0 rest options args :
  parser rest = inr (options, args) ->
  (length args < 2)%nat \/
  ~ In (nth 0 args "") ["start"; "stop"; "restart"; "status"] \/
  ~ In (nth 1 args "") roles ->
  run w (argv0 :: rest) =
    (1%Z,
     [Log ERROR ("ERROR: Use " ++ dq ++ argv0 ++ " --help" ++ dq
                   ++ " to get more informations.")]) /\
  spawned (snd (run w (argv0 :: rest))) = [].
Proof.
  intros Hp Hbad. apply bad_arguments_true in Hbad.
  pose proof (main_bad_arguments w argv0 rest options args Hp Hbad) as Hm.
  unfold returning, bind in Hm. rewrite exit_run in Hm. unfold ret in Hm.
  rewrite (run_returns w _ _ _ Hm). simpl.
  unfold parsed_state. destruct (debug options); simpl; auto.
Qed.

(** When the parser itself ends the run, its exit status is the status
    of the invocation, and nothing else happens. *)
Lemma parser_exit_run argv0 rest x :
  parser rest = inl x ->
  run w (argv0 :: rest) = (exit_status x, [Usage x]).
Proof.
  intros Hp. unfold run, script, main, bind, argv_0, parser_parse_args, ret.
  change (skipn 1 (argv0 :: rest)) with rest. rewrite Hp. reflexivity.
Qed.

End Checks.

(* ================================================================== *)
(** ** The [--user] option (claim C9) *)

Section User.
Variable w : World.

(** C9.  Two invocations of the same program name whose arguments are
    the same except for the value given to the [--user] option behave
    the same: same exit status, same events in the same order (commands
    run, files opened, records logged, parser output). *)
Theorem user_value_ignored argv0 args1 args2 :
  user_variant args1 args2 ->
  run w (argv0 :: args1) = run w (argv0 :: args2).
Proof.
  intros Hv. apply run_same_parse. now apply parser_user_variant.
Qed.

End User.

(* ================================================================== *)
(** ** The theorems at work, and where the claims as worded fail *)

Module Examples.
Import Scenario.

(** [restart server] on a host where the server is down. *)
Lemma restart_stop_then_start_witness :
  parser ["restart"; "server"] = inr (defaults, ["restart"; "server"]) /\
  In "server" roles /\
  path_exists down_host (program_of defaults "server") = true /\
  communicate down_host 0 (STOP_COMMAND (pidfile_of defaults "server"))
    = Completed 1 "" "" /\
  communicate down_host 1
              (START_COMMAND (program_of defaults "server") (getcwd down_host)
                             (pidfile_of defaults "server"))
    = Completed 0 "" "" /\
  exists s1 s2 code_stop code_start,
    stop down_host (pidfile_of defaults "server") (parsed_state defaults)
      = (Val code_stop, s1) /\
    start down_host (getcwd down_host) (program_of defaults "server")
          (pidfile_of defaults "server") s1
      = (Val code_start, s2) /\
    spawned (snd (run down_host (argv0 :: ["restart"; "server"])))
      = [STOP_COMMAND (pidfile_of defaults "server");
         START_COMMAND (program_of defaults "server") (getcwd down_host)
                       (pidfile_of defaults "server")] /\
    (fst (run down_host (argv0 :: ["restart"; "server"])) = 1%Z
       <-> code_stop <> 0%Z \/ code_start <> 0%Z) /\
    (fst (run down_host (argv0 :: ["restart"; "server"])) = 0%Z
       <-> code_stop = 0%Z /\ code_start = 0%Z).
Proof.
  assert (parser ["restart"; "server"] = inr (defaults, ["restart"; "server"]))
    as Hp by reflexivity.
  assert (In "server" roles) as Ht by (left; reflexivity).
  assert (path_exists down_host (program_of defaults "server") = true)
    as He by reflexivity.
  assert (communicate down_host 0 (STOP_COMMAND (pidfile_of defaults "server"))
          = Completed 1 "" "") as H1 by reflexivity.
  assert (communicate down_host 1
              (START_COMMAND (program_of defaults "server") (getcwd down_host)
                             (pidfile_of defaults "server"))
          = Completed 0 "" "") as H2 by reflexivity.
  exact (conj Hp (conj Ht (conj He (conj H1 (conj H2
          (restart_stop_then_start down_host argv0 ["restart"; "server"]
             defaults "server" [] 1 "" "" 0 "" "" Hp Ht He H1 H2)))))).
Defined.

(** [start] when [start-stop-daemon] fails with status 2. *)
Lemma start_reads_returncode_witness :
  communicate failing_host (length (spawned (trace initial)))
              (START_COMMAND "server/bin/openerp-server.py" "/srv/openerp"
                             "server/bin/server.pid")
    = Completed 2 "" "start-stop-daemon: bad usage" /\
  (0 <= 2)%Z /\
  exists s',
    start failing_host "/srv/openerp" "server/bin/openerp-server.py"
          "server/bin/server.pid" initial
      = (Val (code_of (interpret start_already start_failure 2 ""
                                 "start-stop-daemon: bad usage")), s')
    /\ records ERROR (trace s')
       = (records ERROR (trace initial)
            ++ errors_of (interpret start_already start_failure 2 ""
                                    "start-stop-daemon: bad usage"))%list.
Proof.
  assert (communicate failing_host (length (spawned (trace initial)))
              (START_COMMAND "server/bin/openerp-server.py" "/srv/openerp"
                             "server/bin/server.pid")
          = Completed 2 "" "start-stop-daemon: bad usage") as H by reflexivity.
  assert (0 <= 2)%Z as Hr by lia.
  exact (conj H (conj Hr
          (start_reads_returncode failing_host "/srv/openerp"
             "server/bin/openerp-server.py" "server/bin/server.pid" initial
             2 "" "start-stop-daemon: bad usage" H Hr))).
Defined.

(** C2 as worded fails on a negative return code: the words of the
    specification make [-15] a [Failure] with code [-15], while [start]
    returns 0 and logs no error. *)
Lemma start_negative_returncode :
  communicate killed_host 0
              (START_COMMAND "server/bin/openerp-server.py" "/srv/openerp"
                             "server/bin/server.pid")
    = Completed (-15) "" "Terminated" /\
  interpret start_already start_failure (-15) "" "Terminated"
    = Failure (-15) (start_failure "Terminated") /\
  start killed_host "/srv/openerp" "server/bin/openerp-server.py"
        "server/bin/server.pid" initial
    = (Val 0%Z,
       mkState INFO
               [Popen (START_COMMAND "server/bin/openerp-server.py"
                                     "/srv/openerp" "server/bin/server.pid")]) /\
  ~ (exists s',
        start killed_host "/srv/openerp" "server/bin/openerp-server.py"
              "server/bin/server.pid" initial
          = (Val (code_of (interpret start_already start_failure (-15) ""
                                     "Terminated")), s')
        /\ records ERROR (trace s')
           = (records ERROR (trace initial)
                ++ errors_of (interpret start_already start_failure (-15) ""
                                        "Terminated"))%list).
Proof.
  split; [reflexivity|]. split; [reflexivity|]. split; [reflexivity|].
  intros (s' & E & _). vm_compute in E. discriminate E.
Qed.

(** [stop] when [start-stop-daemon] fails with status 2. *)
Lemma stop_reads_returncode_witness :
  communicate failing_host (length (spawned (trace initial)))
              (STOP_COMMAND "server/bin/server.pid")
    = Completed 2 "" "start-stop-daemon: bad usage" /\
  (0 <= 2)%Z /\
  exists s',
    stop failing_host "server/bin/server.pid" initial
      = (Val (code_of (interpret stop_already stop_failure 2 ""
                                 "start-stop-daemon: bad usage")), s')
    /\ records ERROR (trace s')
       = (records ERROR (trace initial)
            ++ errors_of (interpret stop_already stop_failure 2 ""
                                    "start-stop-daemon: bad usage"))%list.
Proof.
  assert (communicate failing_host (length (spawned (trace initial)))
              (STOP_COMMAND "server/bin/server.pid")
          = Completed 2 "" "start-stop-daemon: bad usage") as H by reflexivity.
  assert (0 <= 2)%Z as Hr by lia.
  exact (conj H (conj Hr
          (stop_reads_returncode failing_host "server/bin/server.pid" initial
             2 "" "start-stop-daemon: bad usage" H Hr))).
Defined.

(** C3 as worded fails on a negative return code: the words of the
    specification make [-15] a [Failure] with code [-15], while [stop]
    returns 0 and logs no error. *)
Lemma stop_negative_returncode :
  communicate killed_host 0 (STOP_COMMAND "server/bin/server.pid")
    = Completed (-15) "" "Terminated" /\
  interpret stop_already stop_failure (-15) "" "Terminated"
    = Failure (-15) (stop_failure "Terminated") /\
  stop killed_host "server/bin/server.pid" initial
    = (Val 0%Z, mkState INFO [Popen (STOP_COMMAND "server/bin/server.pid")]) /\
  ~ (exists s',
        stop killed_host "server/bin/server.pid" initial
          = (Val (code_of (interpret stop_already stop_failure (-15) ""
                                     "Terminated")), s')
        /\ records ERROR (trace s')
           = (records ERROR (trace initial)
                ++ errors_of (interpret stop_already stop_failure (-15) ""
                                        "Terminated"))%list).
Proof.
  split; [reflexivity|]. split; [reflexivity|]. split; [reflexivity|].
  intros (s' & E & _). vm_compute in E. discriminate E.
Qed.

(** [status server] when the PID file names a live process. *)
Lemma status_reads_process_table_witness :
  parser ["status"; "server"] = inr (defaults, ["status"; "server"]) /\
  In "server" roles /\
  path_exists alive_host (program_of defaults "server") = true /\
  file_content alive_host (pidfile_of defaults "server") = Some ("4242" ++ nl) /\
  first_line "4242" ("4242" ++ nl) /\
  has_nul (strip "4242") = false /\
  startswith (strip "4242") "/" = false /\
  run alive_host (argv0 :: ["status"; "server"]) =
    (0%Z,
     [Open (pidfile_of defaults "server");
      Log INFO (if path_exists alive_host ("/proc/" ++ strip "4242")
                then running_message "server"
                else stopped_message "server")]).
Proof.
  assert (parser ["status"; "server"] = inr (defaults, ["status"; "server"]))
    as Hp by reflexivity.
  assert (In "server" roles) as Ht by (left; reflexivity).
  assert (path_exists alive_host (program_of defaults "server") = true)
    as He by reflexivity.
  assert (file_content alive_host (pidfile_of defaults "server")
          = Some ("4242" ++ nl)) as Hf by reflexivity.
  assert (first_line "4242" ("4242" ++ nl)) as Hl
      by (exact (first_line_more "4242" "" eq_refl)).
  assert (has_nul (strip "4242") = false) as Hn by reflexivity.
  assert (startswith (strip "4242") "/" = false) as Hs by reflexivity.
  exact (conj Hp (conj Ht (conj He (conj Hf (conj Hl (conj Hn (conj Hs
          (status_reads_process_table alive_host argv0 ["status"; "server"]
             defaults "server" [] ("4242" ++ nl) "4242"
             Hp Ht He Hf Hl Hn Hs)))))))).
Defined.

(** C4 as worded fails on two kinds of PID file.  When the first line
    begins with [/], [os.path.join] drops [/proc], and [status] reports
    Running because [/tmp] exists, although there is no [/proc//tmp].
    When the first line holds a NUL byte, [os.path.exists] raises a
    [TypeError] nothing catches: [status] reports neither Running nor
    Stopped and the exit status is 1. *)
Lemma status_odd_first_lines :
  (file_content Behaviour.zeroed_host (pidfile_of defaults "server")
     = Some ("4242" ++ Behaviour.nul ++ Behaviour.nul ++ nl) /\
   fst (script Behaviour.zeroed_host (argv0 :: ["status"; "server"]) initial)
     = Raise TypeError /\
   run Behaviour.zeroed_host (argv0 :: ["status"; "server"])
     = (1%Z, [Open (pidfile_of defaults "server")])) /\
  file_content odd_host (pidfile_of defaults "server") = Some ("/tmp" ++ nl) /\
  strip (readline ("/tmp" ++ nl)) = "/tmp" /\
  path_exists odd_host ("/proc/" ++ "/tmp") = false /\
  run odd_host (argv0 :: ["status"; "server"]) =
    (0%Z, [Open (pidfile_of defaults "server");
           Log INFO (running_message "server")]) /\
  run odd_host (argv0 :: ["status"; "server"]) <>
    (0%Z,
     [Open (pidfile_of defaults "server");
      Log INFO (if path_exists odd_host ("/proc/" ++ "/tmp")
                then running_message "server"
                else stopped_message "server")]).
Proof.
  split; [repeat split; reflexivity|].
  split; [reflexivity|]. split; [reflexivity|]. split; [reflexivity|].
  split; [reflexivity|]. vm_compute. discriminate.
Qed.

(** [status server] when there is no PID file. *)
Lemma status_without_pidfile_witness :
  parser ["status"; "server"] = inr (defaults, ["status"; "server"]) /\
  In "server" roles /\
  path_exists up_host (program_of defaults "server") = true /\
  file_content up_host (pidfile_of defaults "server") = None /\
  fst (script up_host (argv0 :: ["status"; "server"]) initial)
    = Raise (IOError (pidfile_of defaults "server")) /\
  run up_host (argv0 :: ["status"; "server"])
    = (1%Z, [Open (pidfile_of defaults "server")]) /\
  records INFO (snd (run up_host (argv0 :: ["status"; "server"]))) = [].
Proof.
  assert (parser ["status"; "server"] = inr (defaults, ["status"; "server"]))
    as Hp by reflexivity.
  assert (In "server" roles) as Ht by (left; reflexivity).
  assert (path_exists up_host (program_of defaults "server") = true)
    as He by reflexivity.
  assert (file_content up_host (pidfile_of defaults "server") = None)
    as Hf by reflexivity.
  exact (conj Hp (conj Ht (conj He (conj Hf
          (status_without_pidfile up_host argv0 ["status"; "server"]
             defaults "server" [] Hp Ht He Hf))))).
Defined.

(** [start webserver] where nothing is installed. *)
Lemma missing_program_exits_first_witness :
  parser ["start"; "webserver"] = inr (defaults, ["start"; "webserver"]) /\
  In "start" ["start"; "stop"; "restart"; "status"] /\
  In "webserver" roles /\
  path_exists bare_host (program_of defaults "webserver") = false /\
  run bare_host (argv0 :: ["start"; "webserver"]) =
    (1%Z,
     if has_nul (program_of defaults "webserver") then []
     else [Log ERROR ("The '" ++ "webserver" ++ "' program file doesn't exist: "
                        ++ program_of defaults "webserver" ++ ".")]) /\
  spawned (snd (run bare_host (argv0 :: ["start"; "webserver"]))) = [].
Proof.
  assert (parser ["start"; "webserver"] = inr (defaults, ["start"; "webserver"]))
    as Hp by reflexivity.
  assert (In "start" ["start"; "stop"; "restart"; "status"]) as Hc
      by (left; reflexivity).
  assert (In "webserver" roles) as Ht by (right; left; reflexivity).
  assert (path_exists bare_host (program_of defaults "webserver") = false)
    as He by reflexivity.
  exact (conj Hp (conj Hc (conj Ht (conj He
          (missing_program_exits_first bare_host argv0 ["start"; "webserver"]
             defaults "start" "webserver" [] Hp Hc Ht He))))).
Defined.

(** [start database]: an unknown target. *)
Lemma invalid_arguments_exit_1_witness :
  parser ["start"; "database"] = inr (defaults, ["start"; "database"]) /\
  ((length ["start"; "database"] < 2)%nat \/
   ~ In (nth 0 ["start"; "database"] "") ["start"; "stop"; "restart"; "status"] \/
   ~ In (nth 1 ["start"; "database"] "") roles) /\
  run up_host (argv0 :: ["start"; "database"]) =
    (1%Z,
     [Log ERROR ("ERROR: Use " ++ dq ++ argv0 ++ " --help" ++ dq
                   ++ " to get more informations.")]) /\
  spawned (snd (run up_host (argv0 :: ["start"; "database"]))) = [].
Proof.
  assert (parser ["start"; "database"] = inr (defaults, ["start"; "database"]))
    as Hp by reflexivity.
  assert ((length ["start"; "database"] < 2)%nat \/
          ~ In (nth 0 ["start"; "database"] "")
               ["start"; "stop"; "restart"; "status"] \/
          ~ In (nth 1 ["start"; "database"] "") roles) as Hbad.
  { right; right. intros [H|[H|[]]]; discriminate H. }
  exact (conj Hp (conj Hbad
          (invalid_arguments_exit_1 up_host argv0 ["start"; "database"]
             defaults ["start"; "database"] Hp Hbad))).
Defined.

(** C7 as worded fails when the parser ends the run: with [--help] among
    the arguments the exit status is 0, and with an option that lacks its
    value it is 2, whatever the positional arguments are. *)
Lemma unknown_target_with_help :
  ~ In "database" roles /\
  run up_host (argv0 :: ["start"; "database"; "--help"])
    = (0%Z, [Usage PrintHelp]) /\
  fst (run up_host (argv0 :: ["start"; "database"; "--help"])) <> 1%Z /\
  run up_host (argv0 :: ["start"; "--user"])
    = (2%Z, [Usage (Error (RequiresArgument "--user"))]) /\
  fst (run up_host (argv0 :: ["start"; "--user"])) <> 1%Z.
Proof.
  split; [intros [H|[H|[]]]; discriminate H|].
  split; [reflexivity|]. split; [vm_compute; discriminate|].
  split; [reflexivity|]. vm_compute; discriminate.
Qed.

(** [stop server] on a running server, then again. *)
Lemma stop_twice_witness :
  parser ["stop"; "server"] = inr (defaults, ["stop"; "server"]) /\
  In "server" roles /\
  path_exists up_host (program_of defaults "server") = true /\
  path_exists stopped_host (program_of defaults "server") = true /\
  communicate up_host 0 (STOP_COMMAND (pidfile_of defaults "server"))
    = Completed 0 "" "" /\
  communicate stopped_host 0 (STOP_COMMAND (pidfile_of defaults "server"))
    = Completed 1 "" "" /\
  (fst (run up_host (argv0 :: ["stop"; "server"])) = code_of Success /\
   records ERROR (snd (run up_host (argv0 :: ["stop"; "server"])))
     = errors_of Success) /\
  (fst (run stopped_host (argv0 :: ["stop"; "server"]))
     = code_of (AlreadyInDesiredState stop_already) /\
   records ERROR (snd (run stopped_host (argv0 :: ["stop"; "server"])))
     = errors_of (AlreadyInDesiredState stop_already)) /\
  (forall code captured,
      records ERROR (snd (run stopped_host (argv0 :: ["stop"; "server"])))
        <> errors_of (Failure code (stop_failure captured))).
Proof.
  assert (parser ["stop"; "server"] = inr (defaults, ["stop"; "server"]))
    as Hp by reflexivity.
  assert (In "server" roles) as Ht by (left; reflexivity).
  assert (path_exists up_host (program_of defaults "server") = true)
    as He1 by reflexivity.
  assert (path_exists stopped_host (program_of defaults "server") = true)
    as He2 by reflexivity.
  assert (communicate up_host 0 (STOP_COMMAND (pidfile_of defaults "server"))
          = Completed 0 "" "") as H1 by reflexivity.
  assert (communicate stopped_host 0
                      (STOP_COMMAND (pidfile_of defaults "server"))
          = Completed 1 "" "") as H2 by reflexivity.
  exact (conj Hp (conj Ht (conj He1 (conj He2 (conj H1 (conj H2
          (stop_twice up_host stopped_host argv0 ["stop"; "server"] defaults
             "server" [] "" "" "" "" Hp Ht He1 He2 H1 H2))))))).
Defined.

(** Two invocations that differ in the value of [--user], given after a
    flag and an option with its value. *)
Lemma user_value_ignored_witness :
  user_variant
    ["--debug"; "--server-dir"; "/opt/erp"; "--user=alice"; "start"; "server"]
    ["--debug"; "--server-dir"; "/opt/erp"; "--user=bob"; "start"; "server"] /\
  run up_host (argv0 :: ["--debug"; "--server-dir"; "/opt/erp"; "--user=alice";
                         "start"; "server"])
    = run up_host (argv0 :: ["--debug"; "--server-dir"; "/opt/erp"; "--user=bob";
                             "start"; "server"]).
Proof.
  assert (user_variant
            ["--debug"; "--server-dir"; "/opt/erp"; "--user=alice"; "start"; "server"]
            ["--debug"; "--server-dir"; "/opt/erp"; "--user=bob"; "start"; "server"])
    as Hv.
  { apply uv_skip; [discriminate|reflexivity|].
    apply uv_skip_valued; [reflexivity|].
    apply (uv_attached "--user" "alice" "bob" ["start"; "server"]).
    right; right; right; left; reflexivity. }
  exact (conj Hv (user_value_ignored up_host argv0 _ _ Hv)).
Defined.

(** [start server] when [start-stop-daemon] is killed by a signal. *)
Lemma negative_returncode_success_witness :
  parser ["start"; "server"] = inr (defaults, ["start"; "server"]) /\
  In "start" ["start"; "stop"] /\
  In "server" roles /\
  path_exists killed_host (program_of defaults "server") = true /\
  communicate killed_host 0 (operation_command killed_host defaults "start" "server")
    = Completed (-15) "" "Terminated" /\
  (-15 < 0)%Z /\
  (exists s', operation killed_host defaults "start" "server" (parsed_state defaults)
              = (Val 0%Z, s')) /\
  fst (run killed_host (argv0 :: ["start"; "server"])) = 0%Z /\
  records ERROR (snd (run killed_host (argv0 :: ["start"; "server"]))) = [] /\
  records INFO (snd (run killed_host (argv0 :: ["start"; "server"])))
    = [success_message "start" "server"].
Proof.
  assert (parser ["start"; "server"] = inr (defaults, ["start"; "server"]))
    as Hp by reflexivity.
  assert (In "start" ["start"; "stop"]) as Hc by (left; reflexivity).
  assert (In "server" roles) as Ht by (left; reflexivity).
  assert (path_exists killed_host (program_of defaults "server") = true)
    as He by reflexivity.
  assert (communicate killed_host 0
                      (operation_command killed_host defaults "start" "server")
          = Completed (-15) "" "Terminated") as H by reflexivity.
  assert (-15 < 0)%Z as Hr by lia.
  exact (conj Hp (conj Hc (conj Ht (conj He (conj H (conj Hr
          (negative_returncode_success killed_host argv0 ["start"; "server"]
             defaults "start" "server" [] (-15) "" "Terminated"
             Hp Hc Ht He H Hr))))))).
Defined.

End Examples.

(* ================================================================== *)
(** ** More on the primitives and the operations *)

Import Behaviour.

Section Failures.
Variable w : World.

Lemma popen_communicate_fails command s e :
  communicate w (length (spawned (trace s))) command = Failed e ->
  popen_communicate w command s =
    (Raise (SpawnFailure e), mkState (level s) (trace s ++ [Popen command])).
Proof. intros H. unfold popen_communicate, emit. rewrite H. reflexivity. Qed.

Lemma start_fails directory program pidfile s e :
  communicate w (length (spawned (trace s)))
              (START_COMMAND program directory pidfile) = Failed e ->
  start w directory program pidfile s =
    (Raise (SpawnFailure e),
     mkState (level s)
             (trace s ++ [Popen (START_COMMAND program directory pidfile)])).
Proof.
  intros H. unfold start, bind.
  rewrite (popen_communicate_fails _ s e H). reflexivity.
Qed.

Lemma stop_fails pidfile s e :
  communicate w (length (spawned (trace s))) (STOP_COMMAND pidfile) = Failed e ->
  stop w pidfile s =
    (Raise (SpawnFailure e),
     mkState (level s) (trace s ++ [Popen (STOP_COMMAND pidfile)])).
Proof.
  intros H. unfold stop, bind.
  rewrite (popen_communicate_fails _ s e H). reflexivity.
Qed.

(** At the levels the script sets, an [INFO] record is handled. *)
Lemma logging_info_run message s :
  level s <> ERROR ->
  logging INFO message s =
    (Val tt, mkState (level s) (trace s ++ [Log INFO message])).
Proof.
  intros H. unfold logging, emit.
  destruct s as [[] t]; simpl in *; try reflexivity. contradiction.
Qed.

Lemma parsed_state_level options : level (parsed_state options) <> ERROR.
Proof. unfold parsed_state. destruct (debug options); discriminate. Qed.

Lemma opened_app t1 t2 :
  opened (t1 ++ t2) = (opened t1 ++ opened t2)%list.
Proof. unfold opened. apply flat_map_app. Qed.

(** The code and the errors of an outcome read off a return code. *)
Lemma read_returncode_code already failure r output error :
  let o := read_returncode already failure r output error in
  (code_of o = 0%Z <-> errors_of o = []) /\
  (code_of o = 0%Z \/ code_of o = 1%Z \/ ((1 < code_of o)%Z /\ code_of o = r)).
Proof.
  unfold read_returncode.
  destruct (r =? 1)%Z eqn:E1; [|destruct (1 <? r)%Z eqn:E2]; simpl.
  - split; [split; discriminate|auto].
  - apply Z.ltb_lt in E2. split; [split; [lia|discriminate]|].
    right; right. auto.
  - split; [split; reflexivity|auto].
Qed.

End Failures.

(* ================================================================== *)
(** ** One operation behind an invocation *)

Section OneOperation.
Variable w : World.

(** X1.  After [start] or [stop], the exit status of the invocation is the
    code the operation returned; exactly one command was run; the success
    message is logged exactly when the code is 0, and an error exactly
    when it is not. *)
Theorem operation_exit_status argv0 rest options command target r0
        r output error :
  parser rest = inr (options, command :: target :: r0) ->
  In command ["start"; "stop"] ->
  In target roles ->
  path_exists w (program_of options target) = true ->
  communicate w 0 (operation_command w options command target)
    = Completed r output error ->
  exists code s',
    operation w options command target (parsed_state options) = (Val code, s') /\
    fst (run w (argv0 :: rest)) = code /\
    spawned (snd (run w (argv0 :: rest)))
      = [operation_command w options command target] /\
    records INFO (snd (run w (argv0 :: rest)))
      = (if (code =? 0)%Z then [success_message command target] else []) /\
    (code = 0%Z <-> records ERROR (snd (run w (argv0 :: rest))) = []).
Proof.
  intros Hp Hc Ht He H.
  destruct (operation_run w options command target r output error Hc H)
    as (already & failure & s' & E & Hl & Hs & Herr & Hinfo).
  destruct (read_returncode_code already failure r output error) as (Hz & _).
  set (o := read_returncode already failure r output error) in *.
  exists (code_of o), s'. split; [exact E|].
  pose proof (main_operation w argv0 rest options command target r0 Hp Hc Ht He)
    as Hm.
  unfold bind in Hm. rewrite E in Hm.
  assert (level s' <> ERROR) as Hlv
      by (rewrite Hl; apply parsed_state_level).
  simpl in Hs, Herr, Hinfo.
  destruct (code_of o =? 0)%Z eqn:C.
  - rewrite (logging_info_run _ s' Hlv) in Hm. unfold ret in Hm.
    rewrite (run_returns w _ _ _ Hm). simpl.
    rewrite spawned_app, !records_app, Hs, Herr, Hinfo. simpl.
    rewrite !app_nil_r. repeat split; auto; tauto.
  - unfold ret in Hm. rewrite (run_returns w _ _ _ Hm). simpl.
    rewrite Hs, Herr, Hinfo. repeat split; auto; tauto.
Qed.

(** X2.  When the command of [start] or [stop] cannot be run at all, the
    invocation ends in the uncaught exception, with exit status 1: the
    attempt is its only event, no error and no success is logged. *)
Theorem spawn_failure_uncaught argv0 rest options command target r0 e :
  parser rest = inr (options, command :: target :: r0) ->
  In command ["start"; "stop"] ->
  In target roles ->
  path_exists w (program_of options target) = true ->
  communicate w 0 (operation_command w options command target) = Failed e ->
  fst (script w (argv0 :: rest) initial) = Raise (SpawnFailure e) /\
  run w (argv0 :: rest)
    = (1%Z, [Popen (operation_command w options command target)]).
Proof.
  intros Hp Hc Ht He H.
  pose proof (main_operation w argv0 rest options command target r0 Hp Hc Ht He)
    as Hm.
  assert (operation w options command target (parsed_state options)
          = (Raise (SpawnFailure e),
             mkState (level (parsed_state options))
                     [Popen (operation_command w options command target)]))
    as E.
  { simpl in Hc. destruct Hc as [<-|[<-|[]]];
      unfold operation, operation_command in *; simpl in H |- *.
    - now apply start_fails.
    - now apply stop_fails. }
  unfold bind in Hm. rewrite E in Hm.
  rewrite (run_raises w _ _ _ Hm). unfold script, bind. rewrite Hm.
  simpl. auto.
Qed.

End OneOperation.

(* ================================================================== *)
(** ** More on restart *)

Section Restart.
Variable w : World.

(** X3.  When the stop command of [restart] cannot be run at all, the start
    command is never attempted: the invocation ends in the uncaught
    exception, with exit status 1, the attempt to stop being its only
    event. *)
Theorem restart_stop_spawn_failure argv0 rest options target r0 e :
  parser rest = inr (options, "restart" :: target :: r0) ->
  In target roles ->
  path_exists w (program_of options target) = true ->
  communicate w 0 (STOP_COMMAND (pidfile_of options target)) = Failed e ->
  fst (script w (argv0 :: rest) initial) = Raise (SpawnFailure e) /\
  run w (argv0 :: rest)
    = (1%Z, [Popen (STOP_COMMAND (pidfile_of options target))]).
Proof.
  intros Hp Ht He H.
  pose proof (main_restart w argv0 rest options target r0 Hp Ht He) as Hm.
  unfold bind in Hm.
  rewrite (stop_fails w _ (parsed_state options) e H) in Hm.
  rewrite (run_raises w _ _ _ Hm). unfold script, bind. rewrite Hm.
  simpl. auto.
Qed.

(** X4.  The errors [restart] logs, in order: those of [stop], those of
    [start], and then, exactly when one of the two returned a nonzero
    code, the message that the restart failed; the exit status is 1 in
    that case and 0 otherwise. *)
Theorem restart_error_records argv0 rest options target r0
        r1 output1 error1 r2 output2 error2 :
  parser rest = inr (options, "restart" :: target :: r0) ->
  In target roles ->
  path_exists w (program_of options target) = true ->
  communicate w 0 (STOP_COMMAND (pidfile_of options target))
    = Completed r1 output1 error1 ->
  communicate w 1 (START_COMMAND (program_of options target) (getcwd w)
                                 (pidfile_of options target))
    = Completed r2 output2 error2 ->
  let o1 := read_returncode stop_already stop_failure r1 output1 error1 in
  let o2 := read_returncode start_already start_failure r2 output2 error2 in
  let failed := negb (code_of o1 =? 0)%Z || negb (code_of o2 =? 0)%Z in
  fst (run w (argv0 :: rest)) = (if failed then 1%Z else 0%Z) /\
  records ERROR (snd (run w (argv0 :: rest)))
    = (errors_of o1 ++ errors_of o2
         ++ (if failed then [restart_message target] else []))%list /\
  records INFO (snd (run w (argv0 :: rest))) = [].
Proof.
  intros Hp Ht He H1 H2 o1 o2 failed.
  destruct (stop_run w (pidfile_of options target) (parsed_state options)
                     r1 output1 error1 H1)
    as (s1 & E1 & Hl1 & Hs1 & Herr1 & Hinfo1).
  simpl in Hs1, Herr1, Hinfo1.
  assert (length (spawned (trace s1)) = 1%nat) as Hn1 by (rewrite Hs1; reflexivity).
  rewrite <- Hn1 in H2.
  destruct (start_run w (getcwd w) (program_of options target)
                      (pidfile_of options target) s1 r2 output2 error2 H2)
    as (s2 & E2 & Hl2 & Hs2 & Herr2 & Hinfo2).
  rewrite Herr1 in Herr2. rewrite Hinfo1 in Hinfo2.
  fold o1 in E1, Herr2. fold o2 in E2, Herr2.
  pose proof (main_restart w argv0 rest options target r0 Hp Ht He) as Hm.
  unfold bind in Hm. rewrite E1, E2 in Hm. fold failed in Hm.
  destruct failed.
  - unfold returning, bind in Hm. rewrite exit_run in Hm. unfold ret in Hm.
    rewrite (run_returns w _ _ _ Hm). simpl.
    rewrite !records_app, Herr2, Hinfo2. simpl.
    unfold restart_message. rewrite <- app_assoc. auto.
  - unfold ret in Hm. rewrite (run_returns w _ _ _ Hm). simpl.
    rewrite Herr2, Hinfo2, app_nil_r. auto.
Qed.

End Restart.

(* ================================================================== *)
(** ** More on status *)

Section StatusEdges.
Variable w : World.

Lemma join_absolute a pid :
  startswith pid "/" = true -> join a [pid] = pid.
Proof. intros H. unfold join. simpl. unfold join_step. now rewrite H. Qed.

Lemma lstrip_blank line : blank line = true -> lstrip line = "".
Proof.
  induction line as [|c line IH]; simpl; [reflexivity|].
  intros H. apply andb_prop in H. destruct H as [Hc Hb].
  rewrite Hc. now apply IH.
Qed.

Lemma strip_blank line : blank line = true -> strip line = "".
Proof. intros H. unfold strip. now rewrite lstrip_blank. Qed.

Lemma status_run argv0 rest options target r0 content line :
  parser rest = inr (options, "status" :: target :: r0) ->
  In target roles ->
  path_exists w (program_of options target) = true ->
  file_content w (pidfile_of options target) = Some content ->
  first_line line content ->
  has_nul (join "/proc" [strip line]) = false ->
  run w (argv0 :: rest) =
    (0%Z,
     [Open (pidfile_of options target);
      Log INFO (if path_exists w (join "/proc" [strip line])
                then running_message target
                else stopped_message target)]).
Proof.
  intros Hp Ht He Hf Hl Hn.
  pose proof (main_status w argv0 rest options target r0 Hp Ht He) as Hm.
  unfold open, bind, emit, ret in Hm. rewrite Hf in Hm.
  cbv beta iota in Hm.
  rewrite (strip_readline line content Hl) in Hm.
  rewrite (os_path_exists_run w _ _ Hn) in Hm.
  unfold running_message, stopped_message.
  destruct (path_exists w (join "/proc" [strip line]));
    unfold parsed_state, logging, emit in Hm;
    destruct (debug options); simpl in Hm;
    rewrite (run_returns w _ _ _ Hm); reflexivity.
Qed.

Lemma has_nul_join_proc pid : has_nul (join "/proc" [pid]) = has_nul pid.
Proof.
  unfold join. simpl. unfold join_step.
  destruct (startswith pid "/"); reflexivity.
Qed.

Lemma has_nul_app a b : has_nul (a ++ b) = has_nul a || has_nul b.
Proof.
  induction a as [|c a IH]; simpl; [reflexivity|].
  now rewrite IH, orb_assoc.
Qed.

Lemma has_nul_join_step a b :
  startswith b "/" = false -> has_nul b = false ->
  has_nul (join_step a b) = has_nul a.
Proof.
  intros Hs Hb. unfold join_step. rewrite Hs.
  destruct ((a =? "") || endswith a "/");
    rewrite !has_nul_app, Hb; simpl; now rewrite ?orb_false_r.
Qed.

(** The PID file is opened only once the program file was found, and its
    name then holds no NUL byte: [open] is never given a name it would
    refuse with a [TypeError]. *)
Lemma pidfile_nul_free options target :
  In target roles ->
  path_exists w (program_of options target) = true ->
  has_nul (pidfile_of options target) = false.
Proof.
  intros Ht He. apply path_exists_nul_free in He. revert He.
  unfold program_of, pidfile_of, join.
  pick_role Ht; eval_eqb; cbv beta iota; simpl fold_left;
    rewrite !has_nul_join_step by reflexivity; trivial.
Qed.

(** X17.  When the first line of the PID file, stripped, holds a NUL byte,
    [os.path.exists] raises a [TypeError] that nothing catches: [status]
    ends with exit status 1 having only opened the PID file; it reports
    neither Running nor Stopped. *)
Theorem status_nul_first_line argv0 rest options target r0 content line :
  parser rest = inr (options, "status" :: target :: r0) ->
  In target roles ->
  path_exists w (program_of options target) = true ->
  file_content w (pidfile_of options target) = Some content ->
  first_line line content ->
  has_nul (strip line) = true ->
  fst (script w (argv0 :: rest) initial) = Raise TypeError /\
  run w (argv0 :: rest) = (1%Z, [Open (pidfile_of options target)]).
Proof.
  intros Hp Ht He Hf Hl Hn.
  pose proof (main_status w argv0 rest options target r0 Hp Ht He) as Hm.
  unfold open, bind, emit, ret in Hm. rewrite Hf in Hm.
  cbv beta iota in Hm.
  rewrite (strip_readline line content Hl) in Hm.
  rewrite <- has_nul_join_proc in Hn.
  rewrite (os_path_exists_raises w _ _ Hn) in Hm.
  rewrite (run_raises w _ _ _ Hm). unfold script, bind. rewrite Hm.
  simpl. auto.
Qed.

(** X5.  When the first line of the PID file, stripped, holds no NUL
    byte and begins with [/], [status] looks for that very path and not
    under [/proc]: it reports Running exactly when the path exists.  It
    runs no command and exits with status 0 either way. *)
Theorem status_absolute_first_line argv0 rest options target r0 content line :
  parser rest = inr (options, "status" :: target :: r0) ->
  In target roles ->
  path_exists w (program_of options target) = true ->
  file_content w (pidfile_of options target) = Some content ->
  first_line line content ->
  has_nul (strip line) = false ->
  startswith (strip line) "/" = true ->
  run w (argv0 :: rest) =
    (0%Z,
     [Open (pidfile_of options target);
      Log INFO (if path_exists w (strip line)
                then running_message target
                else stopped_message target)]).
Proof.
  intros Hp Ht He Hf Hl Hn Hs.
  rewrite (status_run argv0 rest options target r0 content line Hp Ht He Hf Hl);
    rewrite (join_absolute "/proc" _ Hs); [reflexivity|exact Hn].
Qed.

(** X6.  When the PID file is empty or its first line is blank, [status] looks
    for [/proc/] itself, whatever follows the first line: it reports
    Running exactly when [/proc/] exists, and exits with status 0. *)
Theorem status_blank_first_line argv0 rest options target r0 content line :
  parser rest = inr (options, "status" :: target :: r0) ->
  In target roles ->
  path_exists w (program_of options target) = true ->
  file_content w (pidfile_of options target) = Some content ->
  first_line line content ->
  blank line = true ->
  run w (argv0 :: rest) =
    (0%Z,
     [Open (pidfile_of options target);
      Log INFO (if path_exists w "/proc/"
                then running_message target
                else stopped_message target)]).
Proof.
  intros Hp Ht He Hf Hl Hb.
  rewrite (status_run argv0 rest options target r0 content line Hp Ht He Hf Hl);
    rewrite (strip_blank line Hb); reflexivity.
Qed.

End StatusEdges.

(* ================================================================== *)
(** ** What [main] reads of the command line *)

Section Reads.
Variable w : World.

(** X7.  An invocation is decided by the program name, [--debug], the first
    two positional arguments and the directory option of the target: the
    positional arguments after the second, the directory of the other
    role and [--user] change nothing in its exit status and its events. *)
Theorem main_reads argv0 rest1 rest2 o1 o2 command target extra1 extra2 :
  parser rest1 = inr (o1, command :: target :: extra1) ->
  parser rest2 = inr (o2, command :: target :: extra2) ->
  In target roles ->
  debug o1 = debug o2 ->
  relevant_dir o1 target = relevant_dir o2 target ->
  run w (argv0 :: rest1) = run w (argv0 :: rest2).
Proof.
  intros H1 H2 Ht Hd Hr.
  unfold run, script, main, bind, argv_0, parser_parse_args, ret.
  change (skipn 1 (argv0 :: rest1)) with rest1.
  change (skipn 1 (argv0 :: rest2)) with rest2.
  rewrite H1, H2. cbv beta iota.
  change (bad_arguments (command :: target :: extra1))
    with (bad_arguments (command :: target :: extra2)).
  cbn [nth]. rewrite Hd.
  pick_role Ht; unfold relevant_dir in Hr; eval_eqb; cbv beta iota in Hr;
    rewrite Hr; reflexivity.
Qed.

End Reads.

(* ================================================================== *)
(** ** Every way an invocation can end *)

Section Endings.
Variable w : World.

Lemma start_opens_nothing directory program pidfile s :
  opened (trace (snd (start w directory program pidfile s))) = opened (trace s).
Proof.
  unfold start, bind, popen_communicate, emit, exit, logging, ret.
  destruct (communicate w _ _) as [r output error|e]; simpl.
  - destruct s as [[] t]; simpl;
      destruct (r =? 1)%Z, (1 <? r)%Z; simpl;
      rewrite ?opened_app; simpl; rewrite ?app_nil_r; reflexivity.
  - rewrite opened_app. simpl. now rewrite app_nil_r.
Qed.

Lemma stop_opens_nothing pidfile s :
  opened (trace (snd (stop w pidfile s))) = opened (trace s).
Proof.
  unfold stop, bind, popen_communicate, emit, exit, logging, ret.
  destruct (communicate w _ _) as [r output error|e]; simpl.
  - destruct s as [[] t]; simpl;
      destruct (r =? 1)%Z, (1 <? r)%Z; simpl;
      rewrite ?opened_app; simpl; rewrite ?app_nil_r; reflexivity.
  - rewrite opened_app. simpl. now rewrite app_nil_r.
Qed.

Lemma start_errors_valid r output error target :
  ~ In ("Invalid target: " ++ target)
       (errors_of (read_returncode start_already start_failure r output error)).
Proof.
  unfold read_returncode.
  destruct (r =? 1)%Z; [|destruct (1 <? r)%Z]; simpl;
    intros H; repeat destruct H as [H|H]; try discriminate H; assumption.
Qed.

Lemma stop_errors_valid r output error target :
  ~ In ("Invalid target: " ++ target)
       (errors_of (read_returncode stop_already stop_failure r output error)).
Proof.
  unfold read_returncode.
  destruct (r =? 1)%Z; [|destruct (1 <? r)%Z]; simpl;
    intros H; repeat destruct H as [H|H]; try discriminate H; assumption.
Qed.

Lemma ending_of argv res s :
  main w argv initial = (res, s) ->
  ending w argv res s ->
  ending w argv (fst (main w argv initial)) (snd (main w argv initial)).
Proof. intros ->. trivial. Qed.

(** [start] behind an invocation. *)
Lemma ending_start argv0 rest options target r0 :
  parser rest = inr (options, "start" :: target :: r0) ->
  In target roles ->
  path_exists w (program_of options target) = true ->
  ending w (argv0 :: rest) (fst (main w (argv0 :: rest) initial))
         (snd (main w (argv0 :: rest) initial)).
Proof.
  intros Hp Ht He.
  pose proof (main_start w argv0 rest options target r0 Hp Ht He) as Hm.
  unfold bind in Hm.
  destruct (communicate w 0 (START_COMMAND (program_of options target) (getcwd w)
                                           (pidfile_of options target)))
    as [r output error|e] eqn:H.
  - destruct (start_run w (getcwd w) (program_of options target)
                        (pidfile_of options target) (parsed_state options)
                        r output error H)
      as (s' & E & Hl & Hs & Herr & _).
    pose proof (start_opens_nothing (getcwd w) (program_of options target)
                                    (pidfile_of options target)
                                    (parsed_state options)) as Ho.
    rewrite E in Ho. simpl in Ho, Hs, Herr.
    destruct (read_returncode_code start_already start_failure r output error)
      as (Hz & Hrange).
    pose proof (start_errors_valid r output error) as Hvalid.
    set (o := read_returncode start_already start_failure r output error) in *.
    rewrite E in Hm.
    assert (level s' <> ERROR) as Hlv by (rewrite Hl; apply parsed_state_level).
    assert (code_of o = 0%Z \/ code_of o = 1%Z \/
            ((1 < code_of o)%Z /\
             exists n command output0 error0,
               nth_error [(START_COMMAND (program_of options target) (getcwd w)
                               (pidfile_of options target))] n = Some command /\
               communicate w n command = Completed (code_of o) output0 error0))
      as Hrange'.
    { destruct Hrange as [?|[?|[? Hr]]]; auto.
      right; right. split; [assumption|]. rewrite Hr.
      exists 0%nat, (START_COMMAND (program_of options target) (getcwd w)
                               (pidfile_of options target)), output, error. split; [reflexivity|exact H]. }
    destruct (code_of o =? 0)%Z.
    + rewrite (logging_info_run _ s' Hlv) in Hm. unfold ret in Hm.
      apply (ending_of _ _ _ Hm). simpl.
      rewrite spawned_app, opened_app, records_app, Hs, Ho, Herr. simpl.
      rewrite app_nil_r.
      split; [tauto|]. split; [exact Hrange'|]. repeat split; auto.
    + unfold ret in Hm. apply (ending_of _ _ _ Hm). simpl.
      rewrite Hs, Ho, Herr. simpl.
      split; [tauto|]. split; [exact Hrange'|]. repeat split; auto.
  - rewrite (start_fails w _ _ _ (parsed_state options) e H) in Hm.
    apply (ending_of _ _ _ Hm). simpl. repeat split; eauto.
Qed.

(** [stop] behind an invocation. *)
Lemma ending_stop argv0 rest options target r0 :
  parser rest = inr (options, "stop" :: target :: r0) ->
  In target roles ->
  path_exists w (program_of options target) = true ->
  ending w (argv0 :: rest) (fst (main w (argv0 :: rest) initial))
         (snd (main w (argv0 :: rest) initial)).
Proof.
  intros Hp Ht He.
  pose proof (main_stop w argv0 rest options target r0 Hp Ht He) as Hm.
  unfold bind in Hm.
  destruct (communicate w 0 (STOP_COMMAND (pidfile_of options target)))
    as [r output error|e] eqn:H.
  - destruct (stop_run w (pidfile_of options target) (parsed_state options)
                       r output error H)
      as (s' & E & Hl & Hs & Herr & _).
    pose proof (stop_opens_nothing (pidfile_of options target)
                                   (parsed_state options)) as Ho.
    rewrite E in Ho. simpl in Ho, Hs, Herr.
    destruct (read_returncode_code stop_already stop_failure r output error)
      as (Hz & Hrange).
    pose proof (stop_errors_valid r output error) as Hvalid.
    set (o := read_returncode stop_already stop_failure r output error) in *.
    rewrite E in Hm.
    assert (level s' <> ERROR) as Hlv by (rewrite Hl; apply parsed_state_level).
    assert (code_of o = 0%Z \/ code_of o = 1%Z \/
            ((1 < code_of o)%Z /\
             exists n command output0 error0,
               nth_error [(STOP_COMMAND (pidfile_of options target))] n = Some command /\
               communicate w n command = Completed (code_of o) output0 error0))
      as Hrange'.
    { destruct Hrange as [?|[?|[? Hr]]]; auto.
      right; right. split; [assumption|]. rewrite Hr.
      exists 0%nat, (STOP_COMMAND (pidfile_of options target)), output, error. split; [reflexivity|exact H]. }
    destruct (code_of o =? 0)%Z.
    + rewrite (logging_info_run _ s' Hlv) in Hm. unfold ret in Hm.
      apply (ending_of _ _ _ Hm). simpl.
      rewrite spawned_app, opened_app, records_app, Hs, Ho, Herr. simpl.
      rewrite app_nil_r.
      split; [tauto|]. split; [exact Hrange'|]. repeat split; auto.
    + unfold ret in Hm. apply (ending_of _ _ _ Hm). simpl.
      rewrite Hs, Ho, Herr. simpl.
      split; [tauto|]. split; [exact Hrange'|]. repeat split; auto.
  - rewrite (stop_fails w _ (parsed_state options) e H) in Hm.
    apply (ending_of _ _ _ Hm). simpl. repeat split; eauto.
Qed.

(** [restart] behind an invocation. *)
Lemma ending_restart argv0 rest options target r0 :
  parser rest = inr (options, "restart" :: target :: r0) ->
  In target roles ->
  path_exists w (program_of options target) = true ->
  ending w (argv0 :: rest) (fst (main w (argv0 :: rest) initial))
         (snd (main w (argv0 :: rest) initial)).
Proof.
  intros Hp Ht He.
  pose proof (main_restart w argv0 rest options target r0 Hp Ht He) as Hm.
  unfold bind in Hm.
  destruct (communicate w 0 (STOP_COMMAND (pidfile_of options target)))
    as [r1 output1 error1|e] eqn:H1.
  - destruct (stop_run w (pidfile_of options target) (parsed_state options)
                       r1 output1 error1 H1)
      as (s1 & E1 & Hl1 & Hs1 & Herr1 & _).
    pose proof (stop_opens_nothing (pidfile_of options target)
                                   (parsed_state options)) as Ho1.
    rewrite E1 in Ho1. simpl in Ho1, Hs1, Herr1.
    rewrite E1 in Hm.
    assert (length (spawned (trace s1)) = 1%nat) as Hn1
        by (rewrite Hs1; reflexivity).
    pose proof (start_opens_nothing (getcwd w) (program_of options target)
                                    (pidfile_of options target) s1) as Ho2.
    destruct (communicate w 1 (START_COMMAND (program_of options target)
                                             (getcwd w)
                                             (pidfile_of options target)))
      as [r2 output2 error2|e] eqn:H2; rewrite <- Hn1 in H2.
    + destruct (start_run w (getcwd w) (program_of options target)
                          (pidfile_of options target) s1 r2 output2 error2 H2)
        as (s2 & E2 & Hl2 & Hs2 & Herr2 & _).
      rewrite E2 in Ho2. simpl in Ho2. rewrite Ho1 in Ho2.
      rewrite Hs1 in Hs2. rewrite Herr1 in Herr2. simpl in Hs2.
      destruct (read_returncode_code stop_already stop_failure r1 output1 error1)
        as (Hz1 & _).
      destruct (read_returncode_code start_already start_failure r2 output2 error2)
        as (Hz2 & _).
      pose proof (stop_errors_valid r1 output1 error1) as Hv1.
      pose proof (start_errors_valid r2 output2 error2) as Hv2.
      set (o1 := read_returncode stop_already stop_failure r1 output1 error1) in *.
      set (o2 := read_returncode start_already start_failure r2 output2 error2) in *.
      rewrite E2 in Hm.
      destruct (negb (code_of o1 =? 0)%Z || negb (code_of o2 =? 0)%Z) eqn:C.
      * unfold returning, bind in Hm. rewrite exit_run in Hm. unfold ret in Hm.
        apply (ending_of _ _ _ Hm). simpl.
        rewrite spawned_app, opened_app, records_app, Hs2, Ho2, Herr2. simpl.
        split; [split; [discriminate|]|].
        { intros Hnil. apply app_eq_nil in Hnil. destruct Hnil as [_ Hnil].
          discriminate Hnil. }
        split; [auto|]. split; [auto|]. split; [auto|]. split; [auto|].
        intros t Hin. apply in_app_or in Hin. destruct Hin as [Hin|Hin].
        -- apply in_app_or in Hin. destruct Hin as [Hin|Hin].
           ++ exact (Hv1 t Hin).
           ++ exact (Hv2 t Hin).
        -- destruct Hin as [Hin|[]]. discriminate Hin.
      * unfold ret in Hm. apply (ending_of _ _ _ Hm). simpl.
        rewrite Hs2, Ho2, Herr2. simpl.
        apply orb_false_iff in C.
        rewrite !negb_false_iff, !Z.eqb_eq in C. destruct C as [C1 C2].
        apply Hz1 in C1. apply Hz2 in C2. rewrite C1, C2. simpl.
        repeat split; auto.
    + rewrite (start_fails w _ _ _ s1 e H2) in Hm.
      apply (ending_of _ _ _ Hm). simpl.
      rewrite spawned_app, opened_app, records_app, Hs1, Ho1, Herr1. simpl.
      rewrite app_nil_r.
      rewrite Hn1 in H2. repeat split; eauto.
      intros t. apply stop_errors_valid.
  - rewrite (stop_fails w _ (parsed_state options) e H1) in Hm.
    apply (ending_of _ _ _ Hm). simpl. repeat split; eauto.
Qed.

(** [status] behind an invocation. *)
Lemma ending_status argv0 rest options target r0 :
  parser rest = inr (options, "status" :: target :: r0) ->
  In target roles ->
  path_exists w (program_of options target) = true ->
  ending w (argv0 :: rest) (fst (main w (argv0 :: rest) initial))
         (snd (main w (argv0 :: rest) initial)).
Proof.
  intros Hp Ht He.
  pose proof (main_status w argv0 rest options target r0 Hp Ht He) as Hm.
  unfold open, bind, emit, ret, raise in Hm.
  destruct (file_content w (pidfile_of options target)) as [content|] eqn:Hf;
    cbv beta iota in Hm.
  - assert (level (mkState (level (parsed_state options))
                           (trace (parsed_state options)
                              ++ [Open (pidfile_of options target)])) <> ERROR)
      as Hlv by (apply parsed_state_level).
    destruct (has_nul (join "/proc" [strip (readline content)])) eqn:Hn.
    + rewrite (os_path_exists_raises w _ _ Hn) in Hm.
      apply (ending_of _ _ _ Hm). simpl. auto.
    + rewrite (os_path_exists_run w _ _ Hn) in Hm.
      destruct (path_exists w (join "/proc" [strip (readline content)]));
        rewrite (logging_info_run _ _ Hlv) in Hm;
        apply (ending_of _ _ _ Hm); simpl;
        repeat split; auto; try discriminate; intros t [].
  - apply (ending_of _ _ _ Hm). simpl. auto.
Qed.

(** Every invocation ends in one of the ways [ending] lists. *)
Lemma main_endings argv :
  ending w argv (fst (main w argv initial)) (snd (main w argv initial)).
Proof.
  destruct argv as [|argv0 rest]; [simpl; auto|].
  destruct (parser rest) as [x|[options args]] eqn:Hp.
  - assert (main w (argv0 :: rest) initial
            = (Raise (SystemExit (Some (exit_status x))), mkState INFO [Usage x]))
      as Hm.
    { unfold main, bind, argv_0, parser_parse_args, ret.
      change (skipn 1 (argv0 :: rest)) with rest. rewrite Hp. reflexivity. }
    apply (ending_of _ _ _ Hm). simpl.
    change (skipn 1 (argv0 :: rest)) with rest. exists x. auto.
  - destruct (bad_arguments args) eqn:B.
    + pose proof (main_bad_arguments w argv0 rest options args Hp B) as Hm.
      unfold returning, bind in Hm. rewrite exit_run in Hm. unfold ret in Hm.
      apply (ending_of _ _ _ Hm). simpl.
      split; [split; discriminate|]. repeat split; auto.
      intros t [H|[]]. discriminate H.
    + destruct (bad_arguments_false args B) as (command & target & r0 & -> & Hc & Ht).
      destruct (path_exists w (program_of options target)) eqn:He.
      * simpl in Hc. destruct Hc as [<-|[<-|[<-|[<-|[]]]]].
        -- now apply ending_start with (options := options) (target := target)
                                         (r0 := r0).
        -- now apply ending_stop with (options := options) (target := target)
                                        (r0 := r0).
        -- now apply ending_restart with (options := options) (target := target)
                                           (r0 := r0).
        -- now apply ending_status with (options := options) (target := target)
                                          (r0 := r0).
      * destruct (has_nul (program_of options target)) eqn:Hn.
        -- pose proof (main_program_nul w argv0 rest options command target r0
                                        Hp B Hn) as Hm.
           apply (ending_of _ _ _ Hm). simpl. auto.
        -- pose proof (main_missing_program w argv0 rest options command target
                                            r0 Hp B Hn He) as Hm.
           unfold returning, bind in Hm. rewrite exit_run in Hm.
           unfold ret in Hm.
           apply (ending_of _ _ _ Hm). simpl.
           split; [split; discriminate|]. repeat split; auto.
           intros t [H|[]]. discriminate H.
Qed.

End Endings.

(* ================================================================== *)
(** ** What holds of every invocation *)

Section Always.
Variable w : World.

(** X8.  The exit status of an invocation, whatever the host and the command
    line, is 0, 1 or 2, or else the return code, greater than 1, of a
    command the invocation ran (the command number [n] among those it
    ran): it is never negative. *)
Theorem exit_status_range argv :
  fst (run w argv) = 0%Z \/ fst (run w argv) = 1%Z \/ fst (run w argv) = 2%Z \/
  ((1 < fst (run w argv))%Z /\
   exists n command output error,
     nth_error (spawned (snd (run w argv))) n = Some command /\
     communicate w n command = Completed (fst (run w argv)) output error).
Proof.
  pose proof (main_endings w argv) as H.
  unfold run, script, bind, raise.
  destruct (main w argv initial) as [res s]. simpl in H.
  destruct res as [[code|]|[| | | |[code|]]]; simpl in *.
  - destruct H as (_ & [->|[->|Hr]] & _); auto.
  - contradiction.
  - auto.
  - auto.
  - auto.
  - auto.
  - destruct H as (x & _ & -> & _). destruct x; auto.
  - contradiction.
Qed.

(** X9.  When [main] returns a code, the code is 0 exactly when no error was
    logged: every nonzero code comes with an error message, and no
    message comes with the code 0. *)
Theorem nonzero_iff_error_logged argv code s :
  main w argv initial = (Val (Some code), s) ->
  (code = 0%Z <-> records ERROR (trace s) = []).
Proof.
  intros Hm. pose proof (main_endings w argv) as H.
  rewrite Hm in H. simpl in H. tauto.
Qed.

(** X10.  An invocation runs at most two commands and opens at most one file,
    and it never does both: it either drives [start-stop-daemon] or reads
    the PID file. *)
Theorem commands_or_pidfile argv :
  (length (spawned (snd (run w argv))) <= 2)%nat /\
  (length (opened (snd (run w argv))) <= 1)%nat /\
  (spawned (snd (run w argv)) = [] \/ opened (snd (run w argv)) = []).
Proof.
  pose proof (main_endings w argv) as H.
  unfold run, script, bind, raise.
  destruct (main w argv initial) as [res s]. simpl in H.
  destruct res as [[code|]|[| | | |[code|]]]; simpl in *.
  - tauto.
  - contradiction.
  - destruct H as (_ & ->). simpl. auto.
  - destruct H as (_ & ->). simpl. auto.
  - destruct H as (Hs & _ & Ho). rewrite Hs. simpl. auto with arith.
  - destruct H as (_ & Ho & Hs & _). rewrite Ho. simpl. auto with arith.
  - destruct H as (x & _ & _ & ->). simpl. auto.
  - contradiction.
Qed.

(** X11.  The check of the arguments leaves the last two exits of [main] dead:
    [main] never returns [None], and the message of an invalid target is
    never logged. *)
Theorem main_dead_ends argv :
  fst (main w argv initial) <> Val None /\
  forall target,
    ~ In ("Invalid target: " ++ target) (records ERROR (snd (run w argv))).
Proof.
  pose proof (main_endings w argv) as H.
  unfold run, script, bind, raise.
  destruct (main w argv initial) as [res s]. simpl in H.
  destruct res as [[code|]|[| | | |[code|]]]; simpl in *;
    try contradiction; (split; [discriminate|]).
  - tauto.
  - destruct H as (_ & ->). intros t [].
  - destruct H as (_ & ->). intros t [].
  - destruct H as (_ & -> & _). intros t [].
  - tauto.
  - destruct H as (x & _ & _ & ->). intros t [].
Qed.

End Always.

(* ================================================================== *)
(** ** The [--debug] option *)

Section Debug.
Variable w : World.

Lemma visible_app t1 t2 :
  visible (t1 ++ t2) = (visible t1 ++ visible t2)%list.
Proof. unfold visible. apply filter_app. Qed.

Lemma spawned_visible t : spawned (visible t) = spawned t.
Proof.
  induction t as [|ev t IH]; [reflexivity|].
  destruct ev as [c|f|[] m|x]; simpl; rewrite ?IH; reflexivity.
Qed.

Lemma alike_emit s1 s2 ev :
  alike s1 s2 ->
  alike (mkState (level s1) (trace s1 ++ [ev]))
        (mkState (level s2) (trace s2 ++ [ev])).
Proof.
  intros (Hv & H1 & H2). unfold alike. simpl.
  rewrite !visible_app, Hv. auto.
Qed.

Lemma alike_debug_left s1 s2 message :
  alike s1 s2 ->
  alike (mkState (level s1) (trace s1 ++ [Log DEBUG message])) s2.
Proof.
  intros (Hv & H1 & H2). unfold alike. simpl.
  rewrite visible_app, Hv. simpl. rewrite app_nil_r. auto.
Qed.

Lemma alike_debug_right s1 s2 message :
  alike s1 s2 ->
  alike s1 (mkState (level s2) (trace s2 ++ [Log DEBUG message])).
Proof.
  intros (Hv & H1 & H2). unfold alike. simpl.
  rewrite visible_app, Hv. simpl. rewrite app_nil_r. auto.
Qed.

Lemma sim_ret {A} (a : A) : simulates (ret a) (ret a).
Proof. intros s1 s2 H. simpl. auto. Qed.

Lemma sim_raise {A} (e : Exn) : simulates (@raise A e) (raise e).
Proof. intros s1 s2 H. simpl. auto. Qed.

Lemma sim_os_path_exists path :
  simulates (os_path_exists w path) (os_path_exists w path).
Proof.
  unfold os_path_exists. destruct (has_nul path); [apply sim_raise|apply sim_ret].
Qed.

Lemma sim_bind {A B} (m1 m2 : M A) (k1 k2 : A -> M B) :
  simulates m1 m2 ->
  (forall a, simulates (k1 a) (k2 a)) ->
  simulates (bind m1 k1) (bind m2 k2).
Proof.
  intros Hm Hk s1 s2 H. destruct (Hm s1 s2 H) as [Hr Ha]. unfold bind.
  destruct (m1 s1) as [r1 s1'], (m2 s2) as [r2 s2']. simpl in Hr, Ha.
  subst r2. destruct r1 as [a|e]; [now apply Hk|simpl; auto].
Qed.

Lemma sim_logging l message : simulates (logging l message) (logging l message).
Proof.
  intros s1 s2 H. pose proof H as (_ & H1 & H2).
  unfold logging, emit.
  destruct l.
  - destruct (levelno (level s1) <=? levelno DEBUG)%Z,
             (levelno (level s2) <=? levelno DEBUG)%Z; simpl; split; auto.
    + now apply alike_debug_right, alike_debug_left.
    + now apply alike_debug_left.
    + now apply alike_debug_right.
  - replace (levelno (level s1) <=? levelno INFO)%Z with true
      by (destruct (level s1); [reflexivity|reflexivity|contradiction]).
    replace (levelno (level s2) <=? levelno INFO)%Z with true
      by (destruct (level s2); [reflexivity|reflexivity|contradiction]).
    simpl. split; [reflexivity|now apply alike_emit].
  - replace (levelno (level s1) <=? levelno ERROR)%Z with true
      by (destruct (level s1); reflexivity).
    replace (levelno (level s2) <=? levelno ERROR)%Z with true
      by (destruct (level s2); reflexivity).
    simpl. split; [reflexivity|now apply alike_emit].
Qed.

Lemma sim_popen_communicate command :
  simulates (popen_communicate w command) (popen_communicate w command).
Proof.
  intros s1 s2 H. pose proof H as (Hv & _ & _).
  unfold popen_communicate, emit.
  rewrite <- (spawned_visible (trace s1)), Hv, spawned_visible.
  destruct (communicate w _ command); simpl;
    (split; [reflexivity|now apply alike_emit]).
Qed.

Lemma sim_open filename : simulates (open w filename) (open w filename).
Proof.
  intros s1 s2 H. unfold open, bind, emit, ret, raise.
  destruct (file_content w filename); simpl;
    (split; [reflexivity|now apply alike_emit]).
Qed.

Lemma sim_exit code message : simulates (exit code message) (exit code message).
Proof.
  unfold exit. apply sim_bind; [apply sim_logging|]. intros _. apply sim_ret.
Qed.

Lemma sim_returning m1 m2 :
  simulates m1 m2 -> simulates (returning m1) (returning m2).
Proof.
  intros H. unfold returning. apply sim_bind; [exact H|].
  intros code. apply sim_ret.
Qed.

Lemma sim_start directory program pidfile :
  simulates (start w directory program pidfile)
            (start w directory program pidfile).
Proof.
  unfold start. apply sim_bind; [apply sim_popen_communicate|].
  intros [[returncode output] error].
  apply sim_bind; [apply sim_logging|]. intros _.
  destruct (returncode =? 1)%Z; [apply sim_exit|].
  destruct (1 <? returncode)%Z; [apply sim_exit|apply sim_ret].
Qed.

Lemma sim_stop pidfile : simulates (stop w pidfile) (stop w pidfile).
Proof.
  unfold stop. apply sim_bind; [apply sim_popen_communicate|].
  intros [[returncode output] error].
  apply sim_bind; [apply sim_logging|]. intros _.
  destruct (returncode =? 1)%Z; [apply sim_exit|].
  destruct (1 <? returncode)%Z; [apply sim_exit|apply sim_ret].
Qed.

Lemma alike_parsed o1 o2 : alike (parsed_state o1) (parsed_state o2).
Proof.
  unfold alike, parsed_state. simpl.
  destruct (debug o1), (debug o2); repeat split; discriminate.
Qed.

(** Two runs of [main] that come down to the same computation, from
    states alike. *)
Lemma run_simulates argv1 argv2 (m : M (option Z)) s1 s2 :
  main w argv1 initial = m s1 ->
  main w argv2 initial = m s2 ->
  alike s1 s2 ->
  simulates m m ->
  fst (run w argv1) = fst (run w argv2) /\
  visible (snd (run w argv1)) = visible (snd (run w argv2)).
Proof.
  intros H1 H2 Ha Hs. unfold run, script, bind, raise.
  rewrite H1, H2. destruct (Hs s1 s2 Ha) as [Hr (Hv & _)].
  destruct (m s1) as [r1 s1'], (m s2) as [r2 s2']. simpl in Hr, Hv.
  subst r2. destruct r1; simpl; auto.
Qed.

Lemma same_dirs_paths o1 o2 target :
  server_dir o1 = server_dir o2 ->
  webserver_dir o1 = webserver_dir o2 ->
  program_of o1 target = program_of o2 target /\
  pidfile_of o1 target = pidfile_of o2 target.
Proof.
  intros Hs Hw. unfold program_of, pidfile_of. rewrite Hs, Hw. auto.
Qed.

(** X12.  [--debug] only adds debug records: two invocations of the same
    program name that are parsed to the same positional arguments and the
    same directories, with or without [--debug], have the same exit status
    and, debug records apart, the same events in the same order. *)
Theorem debug_only_adds_records argv0 rest1 rest2 o1 o2 args :
  parser rest1 = inr (o1, args) ->
  parser rest2 = inr (o2, args) ->
  server_dir o1 = server_dir o2 ->
  webserver_dir o1 = webserver_dir o2 ->
  fst (run w (argv0 :: rest1)) = fst (run w (argv0 :: rest2)) /\
  visible (snd (run w (argv0 :: rest1))) = visible (snd (run w (argv0 :: rest2))).
Proof.
  intros H1 H2 Hs Hw.
  pose proof (alike_parsed o1 o2) as Ha.
  destruct (bad_arguments args) eqn:B.
  - eapply run_simulates;
      [exact (main_bad_arguments w argv0 rest1 o1 args H1 B)
      |exact (main_bad_arguments w argv0 rest2 o2 args H2 B)
      |exact Ha|].
    apply sim_returning, sim_exit.
  - destruct (bad_arguments_false args B) as (command & target & r0 & -> & Hc & Ht).
    destruct (same_dirs_paths o1 o2 target Hs Hw) as [Hprog Hpid].
    destruct (path_exists w (program_of o1 target)) eqn:He.
    + assert (path_exists w (program_of o2 target) = true) as He2
          by (rewrite <- Hprog; exact He).
      simpl in Hc. destruct Hc as [<-|[<-|[<-|[<-|[]]]]].
      * pose proof (main_start w argv0 rest1 o1 target r0 H1 Ht He) as M1.
        pose proof (main_start w argv0 rest2 o2 target r0 H2 Ht He2) as M2.
        rewrite <- Hprog, <- Hpid in M2.
        eapply run_simulates; [exact M1|exact M2|exact Ha|].
        apply sim_bind; [apply sim_start|]. intros code.
        apply sim_bind; [|intros _; apply sim_ret].
        destruct (code =? 0)%Z; [apply sim_logging|apply sim_ret].
      * pose proof (main_stop w argv0 rest1 o1 target r0 H1 Ht He) as M1.
        pose proof (main_stop w argv0 rest2 o2 target r0 H2 Ht He2) as M2.
        rewrite <- Hpid in M2.
        eapply run_simulates; [exact M1|exact M2|exact Ha|].
        apply sim_bind; [apply sim_stop|]. intros code.
        apply sim_bind; [|intros _; apply sim_ret].
        destruct (code =? 0)%Z; [apply sim_logging|apply sim_ret].
      * pose proof (main_restart w argv0 rest1 o1 target r0 H1 Ht He) as M1.
        pose proof (main_restart w argv0 rest2 o2 target r0 H2 Ht He2) as M2.
        rewrite <- Hprog, <- Hpid in M2.
        eapply run_simulates; [exact M1|exact M2|exact Ha|].
        apply sim_bind; [apply sim_stop|]. intros code_stop.
        apply sim_bind; [apply sim_start|]. intros code_start.
        destruct (negb (code_stop =? 0)%Z || negb (code_start =? 0)%Z);
          [apply sim_returning, sim_exit|apply sim_ret].
      * pose proof (main_status w argv0 rest1 o1 target r0 H1 Ht He) as M1.
        pose proof (main_status w argv0 rest2 o2 target r0 H2 Ht He2) as M2.
        rewrite <- Hpid in M2.
        eapply run_simulates; [exact M1|exact M2|exact Ha|].
        apply sim_bind; [apply sim_open|]. intros content.
        apply sim_bind; [apply sim_os_path_exists|]. intros alive.
        apply sim_bind; [|intros _; apply sim_ret].
        destruct alive; apply sim_logging.
    + assert (path_exists w (program_of o2 target) = false) as He2
          by (rewrite <- Hprog; exact He).
      destruct (has_nul (program_of o1 target)) eqn:Hn.
      * assert (has_nul (program_of o2 target) = true) as Hn2
            by (rewrite <- Hprog; exact Hn).
        pose proof (main_program_nul w argv0 rest1 o1 command target r0
                                     H1 B Hn) as M1.
        pose proof (main_program_nul w argv0 rest2 o2 command target r0
                                     H2 B Hn2) as M2.
        apply (run_simulates _ _ (raise TypeError) _ _ M1 M2 Ha).
        apply sim_raise.
      * assert (has_nul (program_of o2 target) = false) as Hn2
            by (rewrite <- Hprog; exact Hn).
        pose proof (main_missing_program w argv0 rest1 o1 command target r0
                                         H1 B Hn He) as M1.
        pose proof (main_missing_program w argv0 rest2 o2 command target r0
                                         H2 B Hn2 He2) as M2.
        rewrite <- Hprog in M2.
        eapply run_simulates; [exact M1|exact M2|exact Ha|].
        apply sim_returning, sim_exit.
Qed.

End Debug.

(* ================================================================== *)
(** ** Without [--debug] *)

Section Quiet.
Variable w : World.

Lemma quiet_emit s ev :
  quiet s -> is_debug ev = false ->
  quiet (mkState (level s) (trace s ++ [ev])).
Proof.
  intros (Hl & Hv) Hev. unfold quiet. simpl.
  rewrite visible_app, Hv. simpl. rewrite Hev. auto.
Qed.

Lemma kq_ret {A} (a : A) : keeps_quiet (ret a).
Proof. intros s H. exact H. Qed.

Lemma kq_raise {A} (e : Exn) : keeps_quiet (@raise A e).
Proof. intros s H. exact H. Qed.

Lemma kq_os_path_exists path : keeps_quiet (os_path_exists w path).
Proof.
  unfold os_path_exists. destruct (has_nul path); [apply kq_raise|apply kq_ret].
Qed.

Lemma kq_bind {A B} (m : M A) (k : A -> M B) :
  keeps_quiet m -> (forall a, keeps_quiet (k a)) -> keeps_quiet (bind m k).
Proof.
  intros Hm Hk s H. specialize (Hm s H). unfold bind.
  destruct (m s) as [[a|e] s']; simpl in *; [now apply Hk|exact Hm].
Qed.

Lemma kq_logging l message : keeps_quiet (logging l message).
Proof.
  intros s H. pose proof H as (Hl & _). unfold logging. rewrite Hl.
  destruct l; simpl; try exact H; unfold emit; simpl;
    now apply quiet_emit.
Qed.

Lemma kq_popen_communicate command : keeps_quiet (popen_communicate w command).
Proof.
  intros s H. unfold popen_communicate, emit.
  destruct (communicate w _ command); simpl; now apply quiet_emit.
Qed.

Lemma kq_open filename : keeps_quiet (open w filename).
Proof.
  intros s H. unfold open, bind, emit, ret, raise.
  destruct (file_content w filename); simpl; now apply quiet_emit.
Qed.

Lemma kq_exit code message : keeps_quiet (exit code message).
Proof.
  unfold exit. apply kq_bind; [apply kq_logging|]. intros _. apply kq_ret.
Qed.

Lemma kq_returning m : keeps_quiet m -> keeps_quiet (returning m).
Proof.
  intros H. unfold returning. apply kq_bind; [exact H|].
  intros code. apply kq_ret.
Qed.

Lemma kq_start directory program pidfile :
  keeps_quiet (start w directory program pidfile).
Proof.
  unfold start. apply kq_bind; [apply kq_popen_communicate|].
  intros [[returncode output] error].
  apply kq_bind; [apply kq_logging|]. intros _.
  destruct (returncode =? 1)%Z; [apply kq_exit|].
  destruct (1 <? returncode)%Z; [apply kq_exit|apply kq_ret].
Qed.

Lemma kq_stop pidfile : keeps_quiet (stop w pidfile).
Proof.
  unfold stop. apply kq_bind; [apply kq_popen_communicate|].
  intros [[returncode output] error].
  apply kq_bind; [apply kq_logging|]. intros _.
  destruct (returncode =? 1)%Z; [apply kq_exit|].
  destruct (1 <? returncode)%Z; [apply kq_exit|apply kq_ret].
Qed.

Lemma quiet_no_debug s message :
  quiet s -> ~ In (Log DEBUG message) (trace s).
Proof.
  intros (_ & Hv) Hin. rewrite <- Hv in Hin.
  unfold visible in Hin. apply filter_In in Hin.
  destruct Hin as [_ Hd]. discriminate Hd.
Qed.

Lemma run_quiet argv (m : M (option Z)) s message :
  main w argv initial = m s ->
  quiet s ->
  keeps_quiet m ->
  ~ In (Log DEBUG message) (snd (run w argv)).
Proof.
  intros Hm Hq Hk. unfold run, script, bind, raise. rewrite Hm.
  specialize (Hk s Hq).
  destruct (m s) as [[code|e] s']; simpl in *; now apply quiet_no_debug.
Qed.

(** X13.  Without [--debug] no debug record is handled: the log of the
    invocation holds the [INFO] and [ERROR] records only. *)
Theorem quiet_without_debug argv0 rest options args message :
  parser rest = inr (options, args) ->
  debug options = false ->
  ~ In (Log DEBUG message) (snd (run w (argv0 :: rest))).
Proof.
  intros Hp Hd.
  assert (quiet (parsed_state options)) as Hq
      by (unfold quiet, parsed_state; rewrite Hd; auto).
  destruct (bad_arguments args) eqn:B.
  - eapply run_quiet;
      [exact (main_bad_arguments w argv0 rest options args Hp B)|exact Hq|].
    apply kq_returning, kq_exit.
  - destruct (bad_arguments_false args B) as (command & target & r0 & -> & Hc & Ht).
    destruct (path_exists w (program_of options target)) eqn:He.
    + simpl in Hc. destruct Hc as [<-|[<-|[<-|[<-|[]]]]].
      * eapply run_quiet;
          [exact (main_start w argv0 rest options target r0 Hp Ht He)|exact Hq|].
        apply kq_bind; [apply kq_start|]. intros code.
        apply kq_bind; [|intros _; apply kq_ret].
        destruct (code =? 0)%Z; [apply kq_logging|apply kq_ret].
      * eapply run_quiet;
          [exact (main_stop w argv0 rest options target r0 Hp Ht He)|exact Hq|].
        apply kq_bind; [apply kq_stop|]. intros code.
        apply kq_bind; [|intros _; apply kq_ret].
        destruct (code =? 0)%Z; [apply kq_logging|apply kq_ret].
      * eapply run_quiet;
          [exact (main_restart w argv0 rest options target r0 Hp Ht He)|exact Hq|].
        apply kq_bind; [apply kq_stop|]. intros code_stop.
        apply kq_bind; [apply kq_start|]. intros code_start.
        destruct (negb (code_stop =? 0)%Z || negb (code_start =? 0)%Z);
          [apply kq_returning, kq_exit|apply kq_ret].
      * eapply run_quiet;
          [exact (main_status w argv0 rest options target r0 Hp Ht He)|exact Hq|].
        apply kq_bind; [apply kq_open|]. intros content.
        apply kq_bind; [apply kq_os_path_exists|]. intros alive.
        apply kq_bind; [|intros _; apply kq_ret].
        destruct alive; apply kq_logging.
    + destruct (has_nul (program_of options target)) eqn:Hn.
      * apply (run_quiet _ (raise TypeError) _ _
                         (main_program_nul w argv0 rest options command target r0
                                           Hp B Hn) Hq).
        apply kq_raise.
      * eapply run_quiet;
          [exact (main_missing_program w argv0 rest options command target r0
                                       Hp B Hn He)|exact Hq|].
        apply kq_returning, kq_exit.
Qed.

End Quiet.

(* ================================================================== *)
(** ** The parser on arguments that follow accepted ones *)

Section ParserPrefix.
Context {V : Type}.
Variable long short : list (string * Action V).

Lemma process_app option value rargs (values : V) rargs' values' suffix :
  process option value rargs values = Next rargs' values' ->
  process option value (rargs ++ suffix) values = Next (rargs' ++ suffix)%list values'.
Proof.
  destruct option, value; simpl; intros [= <- <-]; reflexivity.
Qed.

(** A pass that goes on leaves a tail of the arguments it was given. *)
Lemma _process_long_opt_tail arg rest (values : V) rargs' values' :
  _process_long_opt long arg rest values = Next rargs' values' ->
  rargs' = rest \/ exists value, rest = value :: rargs'.
Proof.
  unfold _process_long_opt.
  destruct (split_eq arg) as [[opt next_arg]|];
    destruct (_match_abbrev _ long) as [e|[opt' option]]; try discriminate;
    destruct (takes_value option); try discriminate.
  - intros H. apply process_rargs in H. auto.
  - destruct rest as [|value rest']; try discriminate.
    intros H. apply process_rargs in H. subst. eauto.
  - intros H. apply process_rargs in H. auto.
Qed.

Lemma _process_long_opt_app arg rest (values : V) rargs' values' suffix :
  _process_long_opt long arg rest values = Next rargs' values' ->
  _process_long_opt long arg (rest ++ suffix) values
    = Next (rargs' ++ suffix)%list values'.
Proof.
  unfold _process_long_opt.
  destruct (split_eq arg) as [[opt next_arg]|];
    destruct (_match_abbrev _ long) as [e|[opt' option]]; try discriminate;
    destruct (takes_value option); try discriminate.
  - apply process_app.
  - destruct rest as [|value rest']; try discriminate. apply process_app.
  - apply process_app.
Qed.

Lemma short_opts_loop_tail chars : forall rest (values : V) rargs' values',
  short_opts_loop short chars rest values = Next rargs' values' ->
  rargs' = rest \/ exists value, rest = value :: rargs'.
Proof.
  induction chars as [|ch chars IH]; intros rest values rargs' values'; simpl.
  - intros [= <- _]. auto.
  - destruct (get _ short) as [[k option]|]; try discriminate.
    destruct (takes_value option).
    + destruct (chars =? "").
      * destruct rest as [|value rest']; try discriminate.
        intros H. apply process_rargs in H. subst. eauto.
      * intros H. apply process_rargs in H. auto.
    + destruct (process option None rest values) as [rargs1 values1|x] eqn:P;
        try discriminate.
      apply process_rargs in P. subst rargs1. apply IH.
Qed.

Lemma short_opts_loop_app chars suffix : forall rest (values : V) rargs' values',
  short_opts_loop short chars rest values = Next rargs' values' ->
  short_opts_loop short chars (rest ++ suffix) values
    = Next (rargs' ++ suffix)%list values'.
Proof.
  induction chars as [|ch chars IH]; intros rest values rargs' values'; simpl.
  - intros [= <- <-]. reflexivity.
  - destruct (get _ short) as [[k option]|]; try discriminate.
    destruct (takes_value option).
    + destruct (chars =? "").
      * destruct rest as [|value rest']; try discriminate. apply process_app.
      * apply (process_app option (Some chars) rest).
    + destruct (process option None rest values) as [rargs1 values1|x] eqn:P;
        try discriminate.
      pose proof (process_rargs _ _ _ _ _ _ P) as ->.
      rewrite (process_app _ _ _ _ _ _ suffix P). apply IH.
Qed.

(** Arguments the parser accepts on their own, with no [--] among them,
    are read the same way when more arguments follow, and the parser then
    goes on with those. *)
Lemma _process_args_app suffix fuel :
  forall fuel' pre largs (values : V) largs' rargs' values',
    ~ In "--" pre ->
    (length pre <= fuel)%nat ->
    (length (pre ++ suffix) <= fuel')%nat ->
    _process_args long short fuel largs pre values = Done largs' rargs' values' ->
    rargs' = [] /\
    _process_args long short fuel' largs (pre ++ suffix) values
      = _process_args long short (length suffix) largs' suffix values'.
Proof.
  induction fuel as [|fuel IH];
    intros fuel' pre largs values largs' rargs' values' Hend Hlen Hlen' H.
  - destruct pre; [|simpl in Hlen; lia]. simpl in H.
    injection H as <- <- <-. split; [reflexivity|].
    apply _process_args_fuel; simpl in *; lia.
  - destruct pre as [|arg rest].
    + simpl in H. injection H as <- <- <-. split; [reflexivity|].
      apply _process_args_fuel; simpl in *; lia.
    + destruct fuel' as [|fuel']; [simpl in Hlen'; lia|].
      simpl in Hlen, Hlen'.
      assert (arg <> "--") as Harg by (intros ->; apply Hend; left; reflexivity).
      assert (~ In "--" rest) as Hrest by (intros Hin; apply Hend; right; exact Hin).
      apply String.eqb_neq in Harg.
      cbn [_process_args app] in H |- *. rewrite Harg in H |- *.
      destruct (substring 0 2 arg =? "--").
      * destruct (_process_long_opt long arg rest values)
          as [rargs1 values1|x] eqn:P; [|discriminate].
        rewrite (_process_long_opt_app _ _ _ _ _ suffix P).
        assert (~ In "--" rargs1 /\ (length rargs1 <= length rest)%nat) as [Hend1 Hlen1].
        { destruct (_process_long_opt_tail _ _ _ _ _ P) as [->|[value ->]].
          - auto.
          - split; [intros Hin; apply Hrest; right; exact Hin|simpl; lia]. }
        apply (IH fuel' rargs1 largs values1 largs' rargs' values' Hend1);
          [lia| |exact H].
        rewrite length_app in *. lia.
      * destruct ((substring 0 1 arg =? "-") && (1 <? String.length arg)%nat).
        -- destruct (_process_short_opts short arg rest values)
             as [rargs1 values1|x] eqn:P; [|discriminate].
           unfold _process_short_opts in P |- *.
           rewrite (short_opts_loop_app _ suffix _ _ _ _ P).
           assert (~ In "--" rargs1 /\ (length rargs1 <= length rest)%nat)
             as [Hend1 Hlen1].
           { destruct (short_opts_loop_tail _ _ _ _ _ P) as [->|[value ->]].
             - auto.
             - split; [intros Hin; apply Hrest; right; exact Hin|simpl; lia]. }
           apply (IH fuel' rargs1 largs values1 largs' rargs' values' Hend1);
             [lia| |exact H].
           rewrite length_app in *. lia.
        -- apply (IH fuel' rest (largs ++ [arg])%list values largs' rargs' values'
                     Hrest); [lia|lia|exact H].
Qed.

End ParserPrefix.

Section Help.
Variable w : World.



End Help.

(* ================================================================== *)
(** ** Options the parser rejects, and directories with a final slash *)

Section OptionValues.
Variable w : World.

Lemma long_await_requires opt (values : Values) :
  awaits_value opt = true ->
  exists name,
    _process_long_opt long_opt opt [] values
      = Leave (Error (RequiresArgument name)).
Proof.
  unfold awaits_value, _process_long_opt. intros Ha.
  apply andb_prop in Ha. destruct Ha as [_ Ha].
  destruct (split_eq opt) as [[o next_arg]|]; [discriminate|].
  destruct (_match_abbrev opt long_opt) as [e|[name option]]; [discriminate|].
  rewrite Ha. exists name. reflexivity.
Qed.

(** X15.  An option that takes a value and comes last, after arguments the
    parser accepts, lacks its value: the invocation prints the usage
    error and exits with status 2, whatever the command and the target
    are; no command is run and no file is opened. *)
Theorem missing_option_value argv0 pre opt options args :
  parser pre = inr (options, args) ->
  ~ In "--" pre ->
  awaits_value opt = true ->
  exists name,
    run w (argv0 :: pre ++ [opt])
      = (2%Z, [Usage (Error (RequiresArgument name))]).
Proof.
  intros Hp Hend Ha.
  assert (exists name, parser (pre ++ [opt]) = inl (Error (RequiresArgument name)))
    as (name & E).
  { unfold parser, parse_args in Hp |- *.
    destruct (_process_args long_opt short_opt (length pre) [] pre defaults)
      as [largs' rargs' values'|x] eqn:P; [|discriminate].
    destruct (_process_args_app long_opt short_opt [opt] (length pre)
                (length (pre ++ [opt])) pre [] defaults largs' rargs' values'
                Hend (Nat.le_refl _) (Nat.le_refl _) P) as [_ E].
    rewrite E.
    destruct (long_await_requires opt values' Ha) as (name & L).
    exists name. cbn [length _process_args].
    pose proof (awaits_value_not_end opt Ha) as Hne.
    apply String.eqb_neq in Hne. rewrite Hne.
    unfold awaits_value in Ha. apply andb_prop in Ha. destruct Ha as [Hl _].
    rewrite Hl, L. reflexivity. }
  exists name. exact (parser_exit_run w argv0 (pre ++ [opt]) _ E).
Qed.

Lemma string_app_assoc (a b c : string) : (a ++ b) ++ c = a ++ (b ++ c).
Proof. induction a as [|ch a IH]; simpl; [reflexivity|now rewrite IH]. Qed.

Lemma endswith_refl p : endswith p p = true.
Proof. destruct p; simpl; [reflexivity|]. now rewrite Ascii.eqb_refl, String.eqb_refl. Qed.

Lemma endswith_app s p : endswith (s ++ p) p = true.
Proof.
  induction s as [|c s IH]; simpl.
  - apply endswith_refl.
  - rewrite IH. apply orb_true_r.
Qed.

(** [os.path.join] on a directory written with and without a final
    slash. *)
Lemma join_step_slash dir b :
  dir <> "" ->
  endswith dir "/" = false ->
  startswith b "/" = false ->
  join_step (dir ++ "/") b = join_step dir b.
Proof.
  intros Hd He Hb. unfold join_step. rewrite Hb, He, endswith_app.
  apply String.eqb_neq in Hd. rewrite Hd, orb_true_r. simpl.
  apply string_app_assoc.
Qed.

Lemma run_same_paths argv0 rest1 rest2 o1 o2 command target extra1 extra2 :
  parser rest1 = inr (o1, command :: target :: extra1) ->
  parser rest2 = inr (o2, command :: target :: extra2) ->
  In target roles ->
  debug o1 = debug o2 ->
  program_of o1 target = program_of o2 target ->
  pidfile_of o1 target = pidfile_of o2 target ->
  run w (argv0 :: rest1) = run w (argv0 :: rest2).
Proof.
  intros H1 H2 Ht Hd Hprog Hpid.
  unfold run, script, main, bind, argv_0, parser_parse_args, ret.
  change (skipn 1 (argv0 :: rest1)) with rest1.
  change (skipn 1 (argv0 :: rest2)) with rest2.
  rewrite H1, H2. cbv beta iota.
  change (bad_arguments (command :: target :: extra1))
    with (bad_arguments (command :: target :: extra2)).
  cbn [nth]. rewrite Hd.
  pick_role Ht; unfold program_of, pidfile_of in Hprog, Hpid; eval_eqb;
    cbv beta iota in Hprog, Hpid; rewrite Hprog, Hpid; reflexivity.
Qed.

(** X16.  A final slash on the directory of the target changes nothing: when
    the directory is not empty and does not end with a slash already, the
    invocation with the directory followed by [/] has the same exit
    status and the same events, the paths in its commands and messages
    included. *)
Theorem trailing_slash_ignored argv0 rest1 rest2 o1 o2 command target
        extra1 extra2 :
  parser rest1 = inr (o1, command :: target :: extra1) ->
  parser rest2 = inr (o2, command :: target :: extra2) ->
  In target roles ->
  debug o1 = debug o2 ->
  relevant_dir o1 target <> "" ->
  endswith (relevant_dir o1 target) "/" = false ->
  relevant_dir o2 target = relevant_dir o1 target ++ "/" ->
  run w (argv0 :: rest1) = run w (argv0 :: rest2).
Proof.
  intros H1 H2 Ht Hd Hne Hsl Hdir.
  apply (run_same_paths argv0 rest1 rest2 o1 o2 command target extra1 extra2
                        H1 H2 Ht Hd);
    unfold program_of, pidfile_of, relevant_dir in *;
    pick_role Ht; eval_eqb; cbv beta iota in *; rewrite Hdir;
    unfold join; simpl fold_left;
    rewrite join_step_slash by (assumption || reflexivity); reflexivity.
Qed.

End OptionValues.

(* ================================================================== *)
(** ** These theorems at work *)

Module Illustrations.
Import Scenario.

(** [start server] when [start-stop-daemon] fails with status 2. *)
Lemma operation_exit_status_witness :
  parser ["start"; "server"] = inr (defaults, ["start"; "server"]) /\
  In "start" ["start"; "stop"] /\
  In "server" roles /\
  path_exists failing_host (program_of defaults "server") = true /\
  communicate failing_host 0 (operation_command failing_host defaults "start" "server")
    = Completed 2 "" "start-stop-daemon: bad usage" /\
  exists code s',
    operation failing_host defaults "start" "server" (parsed_state defaults)
      = (Val code, s') /\
    fst (run failing_host (argv0 :: ["start"; "server"])) = code /\
    spawned (snd (run failing_host (argv0 :: ["start"; "server"])))
      = [operation_command failing_host defaults "start" "server"] /\
    records INFO (snd (run failing_host (argv0 :: ["start"; "server"])))
      = (if (code =? 0)%Z then [success_message "start" "server"] else []) /\
    (code = 0%Z
     <-> records ERROR (snd (run failing_host (argv0 :: ["start"; "server"]))) = []).
Proof.
  assert (parser ["start"; "server"] = inr (defaults, ["start"; "server"]))
    as Hp by reflexivity.
  assert (In "start" ["start"; "stop"]) as Hc by (left; reflexivity).
  assert (In "server" roles) as Ht by (left; reflexivity).
  assert (path_exists failing_host (program_of defaults "server") = true)
    as He by reflexivity.
  assert (communicate failing_host 0
                      (operation_command failing_host defaults "start" "server")
          = Completed 2 "" "start-stop-daemon: bad usage") as H by reflexivity.
  exact (conj Hp (conj Hc (conj Ht (conj He (conj H
          (operation_exit_status failing_host argv0 ["start"; "server"] defaults
             "start" "server" [] 2 "" "start-stop-daemon: bad usage"
             Hp Hc Ht He H)))))).
Defined.

(** [stop server] where [start-stop-daemon] is not installed. *)
Lemma spawn_failure_uncaught_witness :
  parser ["stop"; "server"] = inr (defaults, ["stop"; "server"]) /\
  In "stop" ["start"; "stop"] /\
  In "server" roles /\
  path_exists no_daemon_host (program_of defaults "server") = true /\
  communicate no_daemon_host 0
              (operation_command no_daemon_host defaults "stop" "server")
    = Failed OSError /\
  fst (script no_daemon_host (argv0 :: ["stop"; "server"]) initial)
    = Raise (SpawnFailure OSError) /\
  run no_daemon_host (argv0 :: ["stop"; "server"])
    = (1%Z, [Popen (operation_command no_daemon_host defaults "stop" "server")]).
Proof.
  assert (parser ["stop"; "server"] = inr (defaults, ["stop"; "server"]))
    as Hp by reflexivity.
  assert (In "stop" ["start"; "stop"]) as Hc by (right; left; reflexivity).
  assert (In "server" roles) as Ht by (left; reflexivity).
  assert (path_exists no_daemon_host (program_of defaults "server") = true)
    as He by reflexivity.
  assert (communicate no_daemon_host 0
                      (operation_command no_daemon_host defaults "stop" "server")
          = Failed OSError) as H by reflexivity.
  exact (conj Hp (conj Hc (conj Ht (conj He (conj H
          (spawn_failure_uncaught no_daemon_host argv0 ["stop"; "server"] defaults
             "stop" "server" [] OSError Hp Hc Ht He H)))))).
Defined.

(** [restart webserver] where [start-stop-daemon] is not installed. *)
Lemma restart_stop_spawn_failure_witness :
  parser ["restart"; "webserver"] = inr (defaults, ["restart"; "webserver"]) /\
  In "webserver" roles /\
  path_exists no_daemon_host (program_of defaults "webserver") = true /\
  communicate no_daemon_host 0 (STOP_COMMAND (pidfile_of defaults "webserver"))
    = Failed OSError /\
  fst (script no_daemon_host (argv0 :: ["restart"; "webserver"]) initial)
    = Raise (SpawnFailure OSError) /\
  run no_daemon_host (argv0 :: ["restart"; "webserver"])
    = (1%Z, [Popen (STOP_COMMAND (pidfile_of defaults "webserver"))]).
Proof.
  assert (parser ["restart"; "webserver"]
          = inr (defaults, ["restart"; "webserver"])) as Hp by reflexivity.
  assert (In "webserver" roles) as Ht by (right; left; reflexivity).
  assert (path_exists no_daemon_host (program_of defaults "webserver") = true)
    as He by reflexivity.
  assert (communicate no_daemon_host 0
                      (STOP_COMMAND (pidfile_of defaults "webserver"))
          = Failed OSError) as H by reflexivity.
  exact (conj Hp (conj Ht (conj He (conj H
          (restart_stop_spawn_failure no_daemon_host argv0
             ["restart"; "webserver"] defaults "webserver" [] OSError
             Hp Ht He H))))).
Defined.

(** [restart server] when the server cannot be stopped. *)
Lemma restart_error_records_witness :
  parser ["restart"; "server"] = inr (defaults, ["restart"; "server"]) /\
  In "server" roles /\
  path_exists stuck_host (program_of defaults "server") = true /\
  communicate stuck_host 0 (STOP_COMMAND (pidfile_of defaults "server"))
    = Completed 2 "" "start-stop-daemon: cannot stop" /\
  communicate stuck_host 1
              (START_COMMAND (program_of defaults "server") (getcwd stuck_host)
                             (pidfile_of defaults "server"))
    = Completed 1 "" "" /\
  (let o1 := read_returncode stop_already stop_failure 2 ""
                             "start-stop-daemon: cannot stop" in
   let o2 := read_returncode start_already start_failure 1 "" "" in
   let failed := negb (code_of o1 =? 0)%Z || negb (code_of o2 =? 0)%Z in
   fst (run stuck_host (argv0 :: ["restart"; "server"]))
     = (if failed then 1%Z else 0%Z) /\
   records ERROR (snd (run stuck_host (argv0 :: ["restart"; "server"])))
     = (errors_of o1 ++ errors_of o2
          ++ (if failed then [restart_message "server"] else []))%list /\
   records INFO (snd (run stuck_host (argv0 :: ["restart"; "server"]))) = []).
Proof.
  assert (parser ["restart"; "server"] = inr (defaults, ["restart"; "server"]))
    as Hp by reflexivity.
  assert (In "server" roles) as Ht by (left; reflexivity).
  assert (path_exists stuck_host (program_of defaults "server") = true)
    as He by reflexivity.
  assert (communicate stuck_host 0 (STOP_COMMAND (pidfile_of defaults "server"))
          = Completed 2 "" "start-stop-daemon: cannot stop") as H1 by reflexivity.
  assert (communicate stuck_host 1
              (START_COMMAND (program_of defaults "server") (getcwd stuck_host)
                             (pidfile_of defaults "server"))
          = Completed 1 "" "") as H2 by reflexivity.
  exact (conj Hp (conj Ht (conj He (conj H1 (conj H2
          (restart_error_records stuck_host argv0 ["restart"; "server"] defaults
             "server" [] 2 "" "start-stop-daemon: cannot stop" 1 "" ""
             Hp Ht He H1 H2)))))).
Defined.

(** [status server] when the PID file holds [/tmp]. *)
Lemma status_absolute_first_line_witness :
  parser ["status"; "server"] = inr (defaults, ["status"; "server"]) /\
  In "server" roles /\
  path_exists odd_host (program_of defaults "server") = true /\
  file_content odd_host (pidfile_of defaults "server") = Some ("/tmp" ++ nl) /\
  first_line "/tmp" ("/tmp" ++ nl) /\
  has_nul (strip "/tmp") = false /\
  startswith (strip "/tmp") "/" = true /\
  run odd_host (argv0 :: ["status"; "server"]) =
    (0%Z,
     [Open (pidfile_of defaults "server");
      Log INFO (if path_exists odd_host (strip "/tmp")
                then running_message "server"
                else stopped_message "server")]).
Proof.
  assert (parser ["status"; "server"] = inr (defaults, ["status"; "server"]))
    as Hp by reflexivity.
  assert (In "server" roles) as Ht by (left; reflexivity).
  assert (path_exists odd_host (program_of defaults "server") = true)
    as He by reflexivity.
  assert (file_content odd_host (pidfile_of defaults "server")
          = Some ("/tmp" ++ nl)) as Hf by reflexivity.
  assert (first_line "/tmp" ("/tmp" ++ nl)) as Hl
      by (exact (first_line_more "/tmp" "" eq_refl)).
  assert (has_nul (strip "/tmp") = false) as Hn by reflexivity.
  assert (startswith (strip "/tmp") "/" = true) as Hs by reflexivity.
  exact (conj Hp (conj Ht (conj He (conj Hf (conj Hl (conj Hn (conj Hs
          (status_absolute_first_line odd_host argv0 ["status"; "server"]
             defaults "server" [] ("/tmp" ++ nl) "/tmp"
             Hp Ht He Hf Hl Hn Hs)))))))).
Defined.

(** [status server] when the PID file holds NUL bytes. *)
Lemma status_nul_first_line_witness :
  parser ["status"; "server"] = inr (defaults, ["status"; "server"]) /\
  In "server" roles /\
  path_exists zeroed_host (program_of defaults "server") = true /\
  file_content zeroed_host (pidfile_of defaults "server")
    = Some ("4242" ++ nul ++ nul ++ nl) /\
  first_line ("4242" ++ nul ++ nul) ("4242" ++ nul ++ nul ++ nl) /\
  has_nul (strip ("4242" ++ nul ++ nul)) = true /\
  fst (script zeroed_host (argv0 :: ["status"; "server"]) initial)
    = Raise TypeError /\
  run zeroed_host (argv0 :: ["status"; "server"])
    = (1%Z, [Open (pidfile_of defaults "server")]).
Proof.
  assert (parser ["status"; "server"] = inr (defaults, ["status"; "server"]))
    as Hp by reflexivity.
  assert (In "server" roles) as Ht by (left; reflexivity).
  assert (path_exists zeroed_host (program_of defaults "server") = true)
    as He by reflexivity.
  assert (file_content zeroed_host (pidfile_of defaults "server")
          = Some ("4242" ++ nul ++ nul ++ nl)) as Hf by reflexivity.
  assert (first_line ("4242" ++ nul ++ nul) ("4242" ++ nul ++ nul ++ nl)) as Hl
      by (exact (first_line_more ("4242" ++ nul ++ nul) "" eq_refl)).
  assert (has_nul (strip ("4242" ++ nul ++ nul)) = true) as Hn by reflexivity.
  exact (conj Hp (conj Ht (conj He (conj Hf (conj Hl (conj Hn
          (status_nul_first_line zeroed_host argv0 ["status"; "server"]
             defaults "server" [] ("4242" ++ nul ++ nul ++ nl)
             ("4242" ++ nul ++ nul) Hp Ht He Hf Hl Hn))))))).
Defined.

(** [status server] when the first line of the PID file is blank. *)
Lemma status_blank_first_line_witness :
  parser ["status"; "server"] = inr (defaults, ["status"; "server"]) /\
  In "server" roles /\
  path_exists blank_host (program_of defaults "server") = true /\
  file_content blank_host (pidfile_of defaults "server")
    = Some ("  " ++ nl ++ "4242" ++ nl) /\
  first_line "  " ("  " ++ nl ++ "4242" ++ nl) /\
  blank "  " = true /\
  run blank_host (argv0 :: ["status"; "server"]) =
    (0%Z,
     [Open (pidfile_of defaults "server");
      Log INFO (if path_exists blank_host "/proc/"
                then running_message "server"
                else stopped_message "server")]).
Proof.
  assert (parser ["status"; "server"] = inr (defaults, ["status"; "server"]))
    as Hp by reflexivity.
  assert (In "server" roles) as Ht by (left; reflexivity).
  assert (path_exists blank_host (program_of defaults "server") = true)
    as He by reflexivity.
  assert (file_content blank_host (pidfile_of defaults "server")
          = Some ("  " ++ nl ++ "4242" ++ nl)) as Hf by reflexivity.
  assert (first_line "  " ("  " ++ nl ++ "4242" ++ nl)) as Hl
      by (exact (first_line_more "  " ("4242" ++ nl) eq_refl)).
  assert (blank "  " = true) as Hb by reflexivity.
  exact (conj Hp (conj Ht (conj He (conj Hf (conj Hl (conj Hb
          (status_blank_first_line blank_host argv0 ["status"; "server"]
             defaults "server" [] ("  " ++ nl ++ "4242" ++ nl) "  "
             Hp Ht He Hf Hl Hb))))))).
Defined.

(** [start server] with and without a third positional argument, another
    web directory and another user. *)
Lemma main_reads_witness :
  parser ["start"; "server"; "now"; "--webserver-dir"; "/srv/web"; "--user"; "erp"]
    = inr (mkValues "server" "/srv/web" "erp" false, ["start"; "server"; "now"]) /\
  parser ["start"; "server"] = inr (defaults, ["start"; "server"]) /\
  In "server" roles /\
  debug (mkValues "server" "/srv/web" "erp" false) = debug defaults /\
  relevant_dir (mkValues "server" "/srv/web" "erp" false) "server"
    = relevant_dir defaults "server" /\
  run up_host (argv0 :: ["start"; "server"; "now"; "--webserver-dir"; "/srv/web";
                         "--user"; "erp"])
    = run up_host (argv0 :: ["start"; "server"]).
Proof.
  assert (parser ["start"; "server"; "now"; "--webserver-dir"; "/srv/web";
                  "--user"; "erp"]
          = inr (mkValues "server" "/srv/web" "erp" false,
                 ["start"; "server"; "now"])) as H1 by reflexivity.
  assert (parser ["start"; "server"] = inr (defaults, ["start"; "server"]))
    as H2 by reflexivity.
  assert (In "server" roles) as Ht by (left; reflexivity).
  assert (debug (mkValues "server" "/srv/web" "erp" false) = debug defaults)
    as Hd by reflexivity.
  assert (relevant_dir (mkValues "server" "/srv/web" "erp" false) "server"
          = relevant_dir defaults "server") as Hr by reflexivity.
  exact (conj H1 (conj H2 (conj Ht (conj Hd (conj Hr
          (main_reads up_host argv0 _ _ _ _ "start" "server" ["now"] []
             H1 H2 Ht Hd Hr)))))).
Defined.

(** [start server] when [start-stop-daemon] fails with status 2. *)
Lemma nonzero_iff_error_logged_witness :
  main failing_host (argv0 :: ["start"; "server"]) initial
    = (Val (Some 2%Z),
       snd (main failing_host (argv0 :: ["start"; "server"]) initial)) /\
  (2%Z = 0%Z
   <-> records ERROR
         (trace (snd (main failing_host (argv0 :: ["start"; "server"]) initial)))
       = []).
Proof.
  assert (main failing_host (argv0 :: ["start"; "server"]) initial
          = (Val (Some 2%Z),
             snd (main failing_host (argv0 :: ["start"; "server"]) initial)))
    as Hm by reflexivity.
  exact (conj Hm
          (nonzero_iff_error_logged failing_host (argv0 :: ["start"; "server"])
             2 _ Hm)).
Defined.

(** [restart server] with and without [--debug]. *)
Lemma debug_only_adds_records_witness :
  parser ["--debug"; "restart"; "server"]
    = inr (mkValues "server" "web" "openerp" true, ["restart"; "server"]) /\
  parser ["restart"; "server"] = inr (defaults, ["restart"; "server"]) /\
  server_dir (mkValues "server" "web" "openerp" true) = server_dir defaults /\
  webserver_dir (mkValues "server" "web" "openerp" true) = webserver_dir defaults /\
  fst (run down_host (argv0 :: ["--debug"; "restart"; "server"]))
    = fst (run down_host (argv0 :: ["restart"; "server"])) /\
  visible (snd (run down_host (argv0 :: ["--debug"; "restart"; "server"])))
    = visible (snd (run down_host (argv0 :: ["restart"; "server"]))).
Proof.
  assert (parser ["--debug"; "restart"; "server"]
          = inr (mkValues "server" "web" "openerp" true, ["restart"; "server"]))
    as H1 by reflexivity.
  assert (parser ["restart"; "server"] = inr (defaults, ["restart"; "server"]))
    as H2 by reflexivity.
  assert (server_dir (mkValues "server" "web" "openerp" true) = server_dir defaults)
    as Hs by reflexivity.
  assert (webserver_dir (mkValues "server" "web" "openerp" true)
          = webserver_dir defaults) as Hw by reflexivity.
  exact (conj H1 (conj H2 (conj Hs (conj Hw
          (debug_only_adds_records down_host argv0 _ _ _ _ _ H1 H2 Hs Hw))))).
Defined.

(** [restart server] without [--debug]. *)
Lemma quiet_without_debug_witness :
  parser ["restart"; "server"] = inr (defaults, ["restart"; "server"]) /\
  debug defaults = false /\
  ~ In (Log DEBUG "Running") (snd (run down_host (argv0 :: ["restart"; "server"]))).
Proof.
  assert (parser ["restart"; "server"] = inr (defaults, ["restart"; "server"]))
    as Hp by reflexivity.
  assert (debug defaults = false) as Hd by reflexivity.
  exact (conj Hp (conj Hd
          (quiet_without_debug down_host argv0 ["restart"; "server"] defaults
             ["restart"; "server"] "Running" Hp Hd))).
Defined.


(** [start server --server-dir] *)
Lemma missing_option_value_witness :
  parser ["start"; "server"] = inr (defaults, ["start"; "server"]) /\
  ~ In "--" ["start"; "server"] /\
  awaits_value "--server-dir" = true /\
  exists name,
    run up_host (argv0 :: ["start"; "server"] ++ ["--server-dir"])
      = (2%Z, [Usage (Error (RequiresArgument name))]).
Proof.
  assert (parser ["start"; "server"] = inr (defaults, ["start"; "server"]))
    as Hp by reflexivity.
  assert (~ In "--" ["start"; "server"]) as Hend.
  { intros H. repeat (destruct H as [H|H]; [discriminate H|]). exact H. }
  assert (awaits_value "--server-dir" = true) as Ha by reflexivity.
  exact (conj Hp (conj Hend (conj Ha
          (missing_option_value up_host argv0 ["start"; "server"] "--server-dir"
             _ _ Hp Hend Ha)))).
Defined.

(** [--server-dir server] and [--server-dir server/] *)
Lemma trailing_slash_ignored_witness :
  parser ["--server-dir"; "server"; "start"; "server"]
    = inr (defaults, ["start"; "server"]) /\
  parser ["--server-dir"; "server/"; "start"; "server"]
    = inr (mkValues "server/" "web" "openerp" false, ["start"; "server"]) /\
  In "server" roles /\
  debug defaults = debug (mkValues "server/" "web" "openerp" false) /\
  relevant_dir defaults "server" <> "" /\
  endswith (relevant_dir defaults "server") "/" = false /\
  relevant_dir (mkValues "server/" "web" "openerp" false) "server"
    = relevant_dir defaults "server" ++ "/" /\
  run up_host (argv0 :: ["--server-dir"; "server"; "start"; "server"])
    = run up_host (argv0 :: ["--server-dir"; "server/"; "start"; "server"]).
Proof.
  assert (parser ["--server-dir"; "server"; "start"; "server"]
          = inr (defaults, ["start"; "server"])) as H1 by reflexivity.
  assert (parser ["--server-dir"; "server/"; "start"; "server"]
          = inr (mkValues "server/" "web" "openerp" false, ["start"; "server"]))
    as H2 by reflexivity.
  assert (In "server" roles) as Ht by (left; reflexivity).
  assert (debug defaults = debug (mkValues "server/" "web" "openerp" false))
    as Hd by reflexivity.
  assert (relevant_dir defaults "server" <> "") as Hne by discriminate.
  assert (endswith (relevant_dir defaults "server") "/" = false)
    as Hsl by reflexivity.
  assert (relevant_dir (mkValues "server/" "web" "openerp" false) "server"
          = relevant_dir defaults "server" ++ "/") as Hdir by reflexivity.
  exact (conj H1 (conj H2 (conj Ht (conj Hd (conj Hne (conj Hsl (conj Hdir
          (trailing_slash_ignored up_host argv0 _ _ _ _ "start" "server" [] []
             H1 H2 Ht Hd Hne Hsl Hdir)))))))).
Defined.

End Illustrations.
